(** * Verification of the report pipeline builder (src/report.cc)

    A shallow embedding of [report_t::chain_xact_handlers], [report_t::abbrev]
    and [report_t::ftime], and the properties of the handler chain they
    build.  Strings are [std::string] byte strings ([String.string]),
    positions are [size_type] values ([nat], with [npos] as [None]), and the
    handler chain is the singly linked list of handler objects the C++ code
    allocates with [handler.reset(new X(handler, ...))]. *)

From Equations Require Import Equations.
From Stdlib Require Import List Arith ZArith Lia Bool Ascii String.
Import ListNotations.

Set Implicit Arguments.

Local Open Scope string_scope.

(** ** [std::string] operations used by the descend-expression loop *)

Module StdString.

(** [s.find(c, beg)]: the position of the first [c] at or after [beg];
    [None] stands for [std::string::npos]. *)
Fixpoint find (s : string) (c : ascii) (beg : nat) : option nat :=
  match s with
  | EmptyString => None
  | String a s' =>
      match beg with
      | O => if Ascii.eqb a c then Some 0 else option_map S (find s' c 0)
      | S b => option_map S (find s' c b)
      end
  end.

(** [std::string(s, beg, n)]: at most [n] bytes of [s] from [beg] on.  The
    C++ constructor throws [out_of_range] when [beg > s.size()]; the loop
    below only calls it with [beg <= s.size()] (lemma [find_bounds]), where
    it is this clamped substring. *)
Definition substr (s : string) (beg n : nat) : string := substring beg n s.

(** [std::string(s, beg)]: the rest of [s] from [beg] on. *)
Definition substr_from (s : string) (beg : nat) : string :=
  substring beg (String.length s - beg) s.

(** [s.empty()] *)
Definition empty (s : string) : bool :=
  match s with
  | EmptyString => true
  | String _ _ => false
  end.

End StdString.

(** ** The splitting loop of lines 70-75

    [descend_exprs_loop s beg pos acc] is the state of the [for] loop when
    its condition is tested: [acc] is the list [descend_exprs] built so far.
    When [pos] is [npos] the loop is left and line 75 pushes the rest of the
    string. *)

Definition loop_measure (s : string) (pos : option nat) : nat :=
  match pos with
  | None => 0
  | Some p => S (String.length s - p)
  end.

Lemma find_bounds (s : string) (c : ascii) :
  forall beg p, StdString.find s c beg = Some p -> beg <= p < String.length s.
Proof.
  induction s as [|a s IH]; intros beg p; simpl.
  - discriminate.
  - destruct beg as [|b].
    + destruct (Ascii.eqb a c).
      * intros [= <-]. lia.
      * destruct (StdString.find s c 0) as [q|] eqn:E; simpl; [|discriminate].
        intros [= <-]. apply IH in E. lia.
    + destruct (StdString.find s c b) as [q|] eqn:E; simpl; [|discriminate].
      intros [= <-]. apply IH in E. lia.
Qed.

Equations? descend_exprs_loop (s : string) (beg : nat) (pos : option nat)
    (acc : list string) : list string by wf (loop_measure s pos) lt :=
  descend_exprs_loop s beg None acc := acc ++ [StdString.substr_from s beg];
  descend_exprs_loop s beg (Some p) acc :=
    descend_exprs_loop s (p + 1) (StdString.find s ";" (p + 1))
                       (acc ++ [StdString.substr s beg (p - beg)]).
Proof.
  destruct (StdString.find s ";" (p + 1)) as [q|] eqn:Hq; simpl.
  - apply find_bounds in Hq. lia.
  - lia.
Qed.

(** ** Exceptions

    [throw_(std::logic_error, msg)] and the errors of the value accessors,
    as an error monad. *)

Inductive exn : Type :=
| logic_error (what : string)
| value_error (what : string).

Inductive result (A : Type) : Type :=
| Return (a : A)
| Throw (e : exn).
Arguments Return {A} a.
Arguments Throw {A} e.

Definition bind {A B : Type} (m : result A) (k : A -> result B) : result B :=
  match m with
  | Return a => k a
  | Throw e => Throw e
  end.

Notation "x <- m ;; k" := (bind m (fun x => k))
  (at level 61, m at next level, right associativity).

(** ** The report object *)

(** Modelled from the spec: the declaration of [session_t] (session.h is
    not part of this file); the one member read here, assigned to a [long]
    at line 295. *)

Record session_t : Type := mk_session {
  abbrev_length : Z
}.

(** Modelled from the spec: the declaration of [report_t] (report.h is not
    part of this file).  The members are those [chain_xact_handlers] reads,
    in the order it reads them; the configuration surface of the
    specification gives them as counts, strings and booleans, which is how
    the code tests them ([head_entries || tail_entries], [.empty()],
    [if (flag)]). *)
Record report_t : Type := mk_report {
  head_entries : Z;
  tail_entries : Z;
  display_predicate : string;
  descend_expr : string;
  reconcile_balance : string;
  reconcile_date : string;
  secondary_predicate : string;
  sort_string : string;
  entry_sort : bool;
  show_revalued : bool;
  show_revalued_only : bool;
  show_collapsed : bool;
  show_subtotal : bool;
  days_of_the_week : bool;
  by_payee : bool;
  report_period : string;
  show_inverted : bool;
  show_related : bool;
  show_all_related : bool;
  predicate : string;
  comm_as_payee : bool;
  code_as_payee : bool;
  session : session_t
}.

(** A report with no option set. *)
Definition default_report : report_t :=
  mk_report 0 0 "" "" "" "" "" "" false false false false false false false
            "" false false false "" false false (mk_session 2).

(** [r] with another [descend_expr]. *)
Definition set_descend_expr (r : report_t) (d : string) : report_t :=
  mk_report (head_entries r) (tail_entries r) (display_predicate r) d
            (reconcile_balance r) (reconcile_date r) (secondary_predicate r)
            (sort_string r) (entry_sort r) (show_revalued r)
            (show_revalued_only r) (show_collapsed r) (show_subtotal r)
            (days_of_the_week r) (by_payee r) (report_period r)
            (show_inverted r) (show_related r) (show_all_related r)
            (predicate r) (comm_as_payee r) (code_as_payee r) (session r).

(** [r] with another value of a flag that only matters beside another
    option. *)
Definition set_entry_sort (r : report_t) (b : bool) : report_t :=
  mk_report (head_entries r) (tail_entries r) (display_predicate r)
            (descend_expr r) (reconcile_balance r) (reconcile_date r)
            (secondary_predicate r) (sort_string r) b (show_revalued r)
            (show_revalued_only r) (show_collapsed r) (show_subtotal r)
            (days_of_the_week r) (by_payee r) (report_period r)
            (show_inverted r) (show_related r) (show_all_related r)
            (predicate r) (comm_as_payee r) (code_as_payee r) (session r).

Definition set_show_revalued_only (r : report_t) (b : bool) : report_t :=
  mk_report (head_entries r) (tail_entries r) (display_predicate r)
            (descend_expr r) (reconcile_balance r) (reconcile_date r)
            (secondary_predicate r) (sort_string r) (entry_sort r)
            (show_revalued r) b (show_collapsed r) (show_subtotal r)
            (days_of_the_week r) (by_payee r) (report_period r)
            (show_inverted r) (show_related r) (show_all_related r)
            (predicate r) (comm_as_payee r) (code_as_payee r) (session r).

Definition set_by_payee (r : report_t) (b : bool) : report_t :=
  mk_report (head_entries r) (tail_entries r) (display_predicate r)
            (descend_expr r) (reconcile_balance r) (reconcile_date r)
            (secondary_predicate r) (sort_string r) (entry_sort r)
            (show_revalued r) (show_revalued_only r) (show_collapsed r)
            (show_subtotal r) (days_of_the_week r) b (report_period r)
            (show_inverted r) (show_related r) (show_all_related r)
            (predicate r) (comm_as_payee r) (code_as_payee r) (session r).

Definition set_show_all_related (r : report_t) (b : bool) : report_t :=
  mk_report (head_entries r) (tail_entries r) (display_predicate r)
            (descend_expr r) (reconcile_balance r) (reconcile_date r)
            (secondary_predicate r) (sort_string r) (entry_sort r)
            (show_revalued r) (show_revalued_only r) (show_collapsed r)
            (show_subtotal r) (days_of_the_week r) (by_payee r)
            (report_period r) (show_inverted r) (show_related r) b
            (predicate r) (comm_as_payee r) (code_as_payee r) (session r).

Definition set_code_as_payee_flag (r : report_t) (b : bool) : report_t :=
  mk_report (head_entries r) (tail_entries r) (display_predicate r)
            (descend_expr r) (reconcile_balance r) (reconcile_date r)
            (secondary_predicate r) (sort_string r) (entry_sort r)
            (show_revalued r) (show_revalued_only r) (show_collapsed r)
            (show_subtotal r) (days_of_the_week r) (by_payee r)
            (report_period r) (show_inverted r) (show_related r)
            (show_all_related r) (predicate r) (comm_as_payee r) b
            (session r).

Definition set_reconcile_date (r : report_t) (d : string) : report_t :=
  mk_report (head_entries r) (tail_entries r) (display_predicate r)
            (descend_expr r) (reconcile_balance r) d
            (secondary_predicate r) (sort_string r) (entry_sort r)
            (show_revalued r) (show_revalued_only r) (show_collapsed r)
            (show_subtotal r) (days_of_the_week r) (by_payee r)
            (report_period r) (show_inverted r) (show_related r)
            (show_all_related r) (predicate r) (comm_as_payee r)
            (code_as_payee r) (session r).

Section Report.

(** Types and functions of the other translation units. *)
Variable datetime_t : Type.
Variable value_t : Type.
Variable consumer_t : Type.

(** [parse_datetime(const string&)] *)
Variable parse_datetime : string -> datetime_t.
(** the constructor [value_t(const string&)] *)
Variable value_of_string : string -> value_t.
Variable NULL_VALUE : value_t.
Variable as_string : value_t -> result string.
Variable as_long : value_t -> result Z.
Variable as_datetime : value_t -> result datetime_t.

(** *** Handlers

    Every handler class derives from [item_handler<xact_t>], which holds
    the pointer to the next handler; [stage] is what a class adds to it,
    its kind and constructor arguments. *)

Inductive stage : Type :=
| Truncate_entries (head_count tail_count : Z)
| Filter_xacts (pred : string)
| Calc_xacts
| Component_xacts (expr : string)
| Reconcile_xacts (balance : value_t) (cutoff : datetime_t)
| Sort_entries (sort_order : string)
| Sort_xacts (sort_order : string)
| Changed_value_xacts (changed_values_only : bool)
| Collapse_xacts
| Subtotal_xacts (remember_components : bool)
| Dow_xacts (remember_components : bool)
| By_payee_xacts (remember_components : bool)
| Interval_xacts (period : string) (remember_components : bool)
| Invert_xacts
| Related_xacts (also_matching : bool)
| Set_comm_as_payee
| Set_code_as_payee.

(** A handler is either a consumer supplied by the caller (a formatter,
    [set_account_value]) or one of the stages above in front of the
    handler it was constructed with. *)
Inductive xact_handler : Type :=
| Consumer (c : consumer_t)
| Link (s : stage) (next : xact_handler).

(** The constructors, with the arguments in the order of the C++ ones. *)
Definition truncate_entries h (head_count tail_count : Z) :=
  Link (Truncate_entries head_count tail_count) h.
Definition filter_xacts h (pred : string) := Link (Filter_xacts pred) h.
Definition calc_xacts h := Link Calc_xacts h.
Definition component_xacts h (expr : string) := Link (Component_xacts expr) h.
Definition reconcile_xacts h (balance : value_t) (cutoff : datetime_t) :=
  Link (Reconcile_xacts balance cutoff) h.
Definition sort_entries h (sort_order : string) := Link (Sort_entries sort_order) h.
Definition sort_xacts h (sort_order : string) := Link (Sort_xacts sort_order) h.
Definition changed_value_xacts h (changed_values_only : bool) :=
  Link (Changed_value_xacts changed_values_only) h.
Definition collapse_xacts h := Link Collapse_xacts h.
Definition subtotal_xacts h (remember_components : bool) :=
  Link (Subtotal_xacts remember_components) h.
Definition dow_xacts h (remember_components : bool) :=
  Link (Dow_xacts remember_components) h.
Definition by_payee_xacts h (remember_components : bool) :=
  Link (By_payee_xacts remember_components) h.
Definition interval_xacts h (period : string) (remember_components : bool) :=
  Link (Interval_xacts period remember_components) h.
Definition invert_xacts h := Link Invert_xacts h.
Definition related_xacts h (also_matching : bool) := Link (Related_xacts also_matching) h.
Definition set_comm_as_payee h := Link Set_comm_as_payee h.
Definition set_code_as_payee h := Link Set_code_as_payee h.

(** The stages of a chain in the order an item meets them: the handler
    the walker calls first, then its successor, down to the consumer. *)
Fixpoint flow (h : xact_handler) : list stage :=
  match h with
  | Consumer _ => []
  | Link s next => s :: flow next
  end.

Fixpoint consumer (h : xact_handler) : consumer_t :=
  match h with
  | Consumer c => c
  | Link _ next => consumer next
  end.

(** The class of a stage, without its constructor arguments. *)
Inductive stage_kind : Type :=
| K_truncate | K_filter | K_calc | K_component | K_reconcile
| K_sort_entries | K_sort_xacts | K_changed_value | K_collapse
| K_subtotal | K_dow | K_by_payee | K_interval | K_invert | K_related
| K_comm_as_payee | K_code_as_payee.

Definition kind_of (s : stage) : stage_kind :=
  match s with
  | Truncate_entries _ _ => K_truncate
  | Filter_xacts _ => K_filter
  | Calc_xacts => K_calc
  | Component_xacts _ => K_component
  | Reconcile_xacts _ _ => K_reconcile
  | Sort_entries _ => K_sort_entries
  | Sort_xacts _ => K_sort_xacts
  | Changed_value_xacts _ => K_changed_value
  | Collapse_xacts => K_collapse
  | Subtotal_xacts _ => K_subtotal
  | Dow_xacts _ => K_dow
  | By_payee_xacts _ => K_by_payee
  | Interval_xacts _ _ => K_interval
  | Invert_xacts => K_invert
  | Related_xacts _ => K_related
  | Set_comm_as_payee => K_comm_as_payee
  | Set_code_as_payee => K_code_as_payee
  end.

(** The subtotal family: [subtotal_xacts] and the classes that bucket by
    day of the week or by payee. *)
Definition is_subtotal_family (s : stage) : bool :=
  match s with
  | Subtotal_xacts _ | Dow_xacts _ | By_payee_xacts _ => true
  | _ => false
  end.

(** The [remember_components] argument of the stages that take one. *)
Definition remember_flag (s : stage) : option bool :=
  match s with
  | Subtotal_xacts b | Dow_xacts b | By_payee_xacts b | Interval_xacts _ b => Some b
  | _ => None
  end.

(** *** [report_t::chain_xact_handlers] (lines 37-210)

    [current_moment] is the clock value read at line 90. *)
Definition chain_xact_handlers (current_moment : datetime_t) (r : report_t)
    (base_handler : xact_handler) (handle_individual_xacts : bool)
    : xact_handler :=
  let remember_components := false in
  let handler := base_handler in
  let '(handler, remember_components) :=
    if handle_individual_xacts then
      let handler :=
        if negb (head_entries r =? 0)%Z || negb (tail_entries r =? 0)%Z
        then truncate_entries handler (head_entries r) (tail_entries r)
        else handler in
      let handler :=
        if negb (StdString.empty (display_predicate r))
        then filter_xacts handler (display_predicate r)
        else handler in
      let handler := calc_xacts handler in
      let '(handler, remember_components) :=
        if negb (StdString.empty (descend_expr r)) then
          let descend_exprs :=
            descend_exprs_loop (descend_expr r) 0
              (StdString.find (descend_expr r) ";" 0) [] in
          let handler :=
            fold_left (fun h i => component_xacts h i) (rev descend_exprs) handler in
          (handler, true)
        else (handler, remember_components) in
      let handler :=
        if negb (StdString.empty (reconcile_balance r)) then
          let cutoff := current_moment in
          let cutoff :=
            if negb (StdString.empty (reconcile_date r))
            then parse_datetime (reconcile_date r)
            else cutoff in
          reconcile_xacts handler (value_of_string (reconcile_balance r)) cutoff
        else handler in
      let handler :=
        if negb (StdString.empty (secondary_predicate r))
        then filter_xacts handler (secondary_predicate r)
        else handler in
      let handler :=
        if negb (StdString.empty (sort_string r)) then
          if entry_sort r
          then sort_entries handler (sort_string r)
          else sort_xacts handler (sort_string r)
        else handler in
      let handler :=
        if show_revalued r
        then changed_value_xacts handler (show_revalued_only r)
        else handler in
      let handler :=
        if show_collapsed r then collapse_xacts handler else handler in
      let handler :=
        if show_subtotal r
        then subtotal_xacts handler remember_components
        else handler in
      let handler :=
        if days_of_the_week r then dow_xacts handler remember_components
        else if by_payee r then by_payee_xacts handler remember_components
        else handler in
      let handler :=
        if negb (StdString.empty (report_period r)) then
          let handler :=
            interval_xacts handler (report_period r) remember_components in
          sort_xacts handler "d"
        else handler in
      (handler, remember_components)
    else (handler, remember_components) in
  let handler := if show_inverted r then invert_xacts handler else handler in
  let handler :=
    if show_related r then related_xacts handler (show_all_related r)
    else handler in
  let handler :=
    if negb (StdString.empty (predicate r))
    then filter_xacts handler (predicate r)
    else handler in
  let handler :=
    if comm_as_payee r then set_comm_as_payee handler
    else if code_as_payee r then set_code_as_payee handler
    else handler in
  handler.

(** *** [report_t::abbrev] (lines 281-305) and [report_t::ftime] (307-326)

    [args] is the [call_scope_t] (declared in scope.h, taken here as the
    list of the argument values): [args.size()] is its length, [args[i]]
    its [i]-th value.  The blocks under [#if 0] are not compiled.  Neither
    function assigns to a member of the report, so the result is all a call
    produces. *)

Definition call_scope_t : Type := list value_t.

Definition arg (args : call_scope_t) (i : nat) : result value_t :=
  match nth_error args i with
  | Some v => Return v
  | None => Throw (value_error "argument index out of range")
  end.

Definition abbrev (r : report_t) (args : call_scope_t) : result value_t :=
  if (List.length args <? 2)%nat then
    Throw (logic_error "usage: abbrev(STRING, WIDTH [, STYLE, ABBREV_LEN])")
  else
    a0 <- arg args 0 ;;
    str <- as_string a0 ;;
    abbrev_len <-
      (if (List.length args =? 4)%nat
       then a3 <- arg args 3 ;; as_long a3
       else Return (abbrev_length (session r))) ;;
    Return NULL_VALUE.

Definition ftime (r : report_t) (args : call_scope_t) : result value_t :=
  if (List.length args <? 1)%nat then
    Throw (logic_error "usage: ftime(DATE [, DATE_FORMAT])")
  else
    a0 <- arg args 0 ;;
    date <- as_datetime a0 ;;
    date_format <-
      (if (List.length args =? 2)%nat
       then a1 <- arg args 1 ;; as_string a1
       else Return "") ;;
    Return NULL_VALUE.

End Report.

(** ** [report_t::lookup] (lines 350-457)

    [name.c_str()] is the bytes of [name] before its first NUL byte; the
    comparisons of the function read this C string, while the call of
    [session.lookup] at line 456 gets [name] itself. *)

Module CString.

Definition NUL : ascii := Ascii.zero.

(** [s.c_str()], as the C string functions see it. *)
Fixpoint c_str (s : string) : string :=
  match s with
  | EmptyString => EmptyString
  | String a s' => if Ascii.eqb a NUL then EmptyString else String a (c_str s')
  end.

(** [*p]: the first byte, the terminating NUL when the string is empty. *)
Definition deref (p : string) : ascii :=
  match p with
  | EmptyString => NUL
  | String a _ => a
  end.

(** [p + n], for [n] within the string. *)
Definition advance (p : string) (n : nat) : string := StdString.substr_from p n.

(** [std::strncmp(p, q, n) == 0] *)
Fixpoint strncmp_eq (p q : string) (n : nat) {struct n} : bool :=
  match n with
  | O => true
  | S n' =>
      match p, q with
      | EmptyString, EmptyString => true
      | String a p', String b q' => Ascii.eqb a b && strncmp_eq p' q' n'
      | _, _ => false
      end
  end.

(** [std::strcmp(p, q) == 0] *)
Definition strcmp_eq (p q : string) : bool := String.eqb p q.

(** No byte of [s] is NUL. *)
Fixpoint nul_free (s : string) : bool :=
  match s with
  | EmptyString => true
  | String a s' => negb (Ascii.eqb a NUL) && nul_free s'
  end.

End CString.

(** The member functions [MAKE_FUNCTOR] is applied to. *)
Inductive report_method : Type :=
| option_amount
| option_bar
| option_format
| option_total.

Section Lookup.

(** [expr_t::ptr_op_t], the [MAKE_FUNCTOR] macro and [session_t::lookup]
    belong to other translation units. *)
Variable ptr_op_t : Type.
Variable MAKE_FUNCTOR : report_method -> ptr_op_t.
Variable session_lookup : string -> ptr_op_t.

(** The inner [switch] of lines 357-451 on the text after [option_]:
    [Some op] is a [return op], [None] a [break].  The cases compiled out
    by [#if 0] are left out; the cases 'e', 'i', 'l' and 'r' only break. *)
Definition lookup_option (p : string) : option ptr_op_t :=
  let c := CString.deref p in
  if Ascii.eqb c "a" then
    if CString.strcmp_eq p "amount" then Some (MAKE_FUNCTOR option_amount)
    else None
  else if Ascii.eqb c "b" then
    if CString.strcmp_eq p "bar" then Some (MAKE_FUNCTOR option_bar)
    else None
  else if Ascii.eqb c "e" then None
  else if Ascii.eqb c "f" then
    if CString.strcmp_eq p "format" then Some (MAKE_FUNCTOR option_format)
    else None
  else if Ascii.eqb c "i" then None
  else if Ascii.eqb c "l" then None
  else if Ascii.eqb c "r" then None
  else if Ascii.eqb c "t" then
    if Ascii.eqb (CString.deref (CString.advance p 1)) CString.NUL
    then Some (MAKE_FUNCTOR option_amount)
    else if CString.strcmp_eq p "total" then Some (MAKE_FUNCTOR option_total)
    else None
  else if Ascii.eqb c "T" then
    if Ascii.eqb (CString.deref (CString.advance p 1)) CString.NUL
    then Some (MAKE_FUNCTOR option_total)
    else None
  else None.

Definition lookup (name : string) : ptr_op_t :=
  let p := CString.c_str name in
  let found :=
    if Ascii.eqb (CString.deref p) "o" then
      if CString.strncmp_eq p "option_" 7 then
        let p := CString.advance p 7 in
        lookup_option p
      else None
    else None in
  match found with
  | Some op => op
  | None => session_lookup name
  end.

End Lookup.

(** The option names of [lookup] as a table, the form the design notes of
    the specification ask for. *)
Definition option_table : list (string * report_method) :=
  [ ("option_amount", option_amount);
    ("option_bar", option_bar);
    ("option_format", option_format);
    ("option_t", option_amount);
    ("option_total", option_total);
    ("option_T", option_total) ].

Fixpoint table_find (key : string) (table : list (string * report_method))
    : option report_method :=
  match table with
  | [] => None
  | (k, m) :: rest => if String.eqb key k then Some m else table_find key rest
  end.

(** ** A concrete instance of the external types, to run the builder

    Dates are seconds since the epoch, a value is the string it was made
    from, and the consumer is a formatter known by its name. *)

Module Sample.

Definition datetime_t : Type := Z.
Definition value_t : Type := string.
Definition consumer_t : Type := string.

Definition parse_datetime (s : string) : datetime_t :=
  if String.eqb s "1970/01/02" then 86400%Z else 0%Z.
Definition value_of_string (s : string) : value_t := s.
Definition NULL_VALUE : value_t := "".
(** Accessors of a value that is neither a string, an integer nor a
    date: each of them throws. *)
Definition as_string (v : value_t) : result string :=
  Throw (value_error "not a string").
Definition as_long (v : value_t) : result Z :=
  Throw (value_error "not an integer").
Definition as_datetime (v : value_t) : result datetime_t :=
  Throw (value_error "not a date").

Definition stage : Type := stage datetime_t value_t.
Definition xact_handler : Type := xact_handler datetime_t value_t consumer_t.

Definition format_xacts : xact_handler := Consumer _ _ "format_xacts".

Definition chain (current_moment : datetime_t) (r : report_t)
    (handle_individual_xacts : bool) : xact_handler :=
  chain_xact_handlers parse_datetime value_of_string current_moment r
    format_xacts handle_individual_xacts.

(** Reports with one or two options set. *)
Definition with_display_predicate : report_t :=
  mk_report 0 0 "a > 0" "" "" "" "" "" false false false false false false
            false "" false false false "" false false (mk_session 2).

Definition with_subtotal_and_dow : report_t :=
  mk_report 0 0 "" "" "" "" "" "" false false false false true true
            false "" false false false "" false false (mk_session 2).

Definition with_period : report_t :=
  mk_report 0 0 "" "" "" "" "" "" false false false false false false
            false "monthly" false false false "" false false (mk_session 2).

Definition with_descend (d : string) : report_t :=
  mk_report 0 0 "" d "" "" "" "" false false false false false false
            false "" false false false "" false false (mk_session 2).

Definition with_reconcile_balance : report_t :=
  mk_report 0 0 "" "" "100.00" "" "" "" false false false false false false
            false "" false false false "" false false (mk_session 2).

Definition with_reconcile_date : report_t :=
  mk_report 0 0 "" "" "100.00" "1970/01/02" "" "" false false false false
            false false false "" false false false "" false false
            (mk_session 2).

Definition with_descend_and_buckets : report_t :=
  mk_report 0 0 "" "a;b" "" "" "" "" false false false false true false
            true "weekly" true false false "" false false (mk_session 2).

End Sample.

(** ** Behaviour of the calc and filter stages

    The handler classes themselves are defined in walk.h, outside this
    file; what a chain computes is modelled for the two stages whose order
    the comment at lines 58-60 is about. *)

Module Stream.

Local Open Scope Z_scope.

Definition commodity : Type := string.

(** Modelled from the spec: a running total "(per commodity)". *)
Definition balance : Type := commodity -> Z.

Definition zero_balance : balance := fun _ => 0.

(** Modelled from the spec: a transaction (xact.h), "one amount" and "a
    transient scratch annotation (running total ...)". *)
Record xact : Type := mk_xact {
  xact_id : nat;
  xact_commodity : commodity;
  xact_amount : Z;
  xdata_total : balance
}.

Definition add_amount (b : balance) (x : xact) : balance :=
  fun c => if String.eqb c (xact_commodity x) then b c + xact_amount x else b c.

Definition stamp (x : xact) (b : balance) : xact :=
  mk_xact (xact_id x) (xact_commodity x) (xact_amount x) b.

(** Modelled from the spec: the stage contract of walk.h, "accept(item) ->
    zero or more items to successor"; a stage has a state of its own and
    hands the items it emits to its sole successor.  Neither calc nor
    filter buffers, so their drain emits nothing. *)
Record stage_sem (S : Type) : Type := mk_stage_sem {
  init : S;
  accept : S -> xact -> S * list xact
}.

(** Push a stream of items through one stage. *)
Fixpoint run {S : Type} (st : stage_sem S) (s : S) (items : list xact)
    : S * list xact :=
  match items with
  | [] => (s, [])
  | x :: rest =>
      let '(s1, out1) := accept st s x in
      let '(s2, out2) := run st s1 rest in
      (s2, (out1 ++ out2)%list)
  end.

(** Modelled from the spec: calc_xacts (walk.h), "Adds each passing
    transaction's amount (per commodity) to a running total and stamps it
    on the transaction's scratch annotation". *)
Definition calc_xacts_sem : stage_sem balance :=
  mk_stage_sem zero_balance
    (fun total x => let total' := add_amount total x in (total', [stamp x total'])).

(** Modelled from the spec: filter_xacts (walk.h), "Evaluates an externally
    supplied boolean expression per transaction; drops on false; no
    buffering". *)
Definition filter_xacts_sem (pred : xact -> bool) : stage_sem unit :=
  mk_stage_sem tt (fun s x => (s, if pred x then [x] else [])).

(** [upstream] in front of [downstream]: what the first stage emits is
    pushed through the second. *)
Definition chain2 {S1 S2 : Type} (upstream : stage_sem S1)
    (downstream : stage_sem S2) : stage_sem (S1 * S2) :=
  mk_stage_sem (init upstream, init downstream)
    (fun s x =>
       let '(s1, out1) := accept upstream (fst s) x in
       let '(s2, out2) := run downstream (snd s) out1 in
       ((s1, s2), out2)).

(** calc upstream of the filter, the order [chain_xact_handlers] gives the
    display filter; and the filter upstream of calc.  Each returns the
    running total calc has accumulated and the items that reach the
    consumer. *)
Definition calc_then_filter (pred : xact -> bool) (items : list xact)
    : balance * list xact :=
  let '(s, out) :=
    run (chain2 calc_xacts_sem (filter_xacts_sem pred))
        (init (chain2 calc_xacts_sem (filter_xacts_sem pred))) items in
  (fst s, out).

Definition filter_then_calc (pred : xact -> bool) (items : list xact)
    : balance * list xact :=
  let '(s, out) :=
    run (chain2 (filter_xacts_sem pred) calc_xacts_sem)
        (init (chain2 (filter_xacts_sem pred) calc_xacts_sem)) items in
  (snd s, out).

(** The total stamped on the last item that reached the consumer. *)
Definition final_stamp (out : list xact) : balance :=
  match rev out with
  | [] => zero_balance
  | x :: _ => xdata_total x
  end.

(** The sum, per commodity, of the amounts of the items the filter drops. *)
Fixpoint removed_sum (pred : xact -> bool) (items : list xact) : balance :=
  match items with
  | [] => zero_balance
  | x :: rest =>
      fun c =>
        (if pred x then 0
         else if String.eqb c (xact_commodity x) then xact_amount x else 0)
        + removed_sum pred rest c
  end.

(** The stream up to its last item that passes the filter: what is behind
    that item never reaches the consumer. *)
Fixpoint upto_last_kept (pred : xact -> bool) (items : list xact) : list xact :=
  match items with
  | [] => []
  | x :: rest =>
      match upto_last_kept pred rest with
      | [] => if pred x then [x] else []
      | y :: more => x :: y :: more
      end
  end.

(** The predicate looks at the posting, not at the total stamped on it. *)
Definition ignores_total (pred : xact -> bool) : Prop :=
  forall x b, pred (stamp x b) = pred x.

(** A stream whose first two postings cancel, and a filter that removes
    exactly those two. *)
Definition cancelling_stream : list xact :=
  [ mk_xact 1 "USD" 5 zero_balance;
    mk_xact 2 "USD" (-5) zero_balance;
    mk_xact 3 "USD" 1 zero_balance ].

Definition keep_third (x : xact) : bool := Nat.eqb (xact_id x) 3.

End Stream.

(** ** Splitting on semicolons, as the specification words it

    "A descend expression list is split on [;]": the segments between the
    semicolons, empty ones included. *)

Definition cons_head (a : ascii) (segs : list string) : list string :=
  match segs with
  | [] => [String a ""]
  | seg :: rest => String a seg :: rest
  end.

Fixpoint split_semicolons (s : string) : list string :=
  match s with
  | EmptyString => [""]
  | String a s' =>
      if Ascii.eqb a ";" then "" :: split_semicolons s'
      else cons_head a (split_semicolons s')
  end.

Fixpoint count_semicolons (s : string) : nat :=
  match s with
  | EmptyString => 0
  | String a s' => (if Ascii.eqb a ";" then 1 else 0) + count_semicolons s'
  end.

(** ** The chain as a list of stages

    Vocabulary for the statements below: list operations on the stages of a
    chain, and the stages each group of options contributes, written in the
    order an item meets them.  These lists are not the embedding of the
    builder; lemma [chain_prepend] proves that [chain_xact_handlers] builds
    exactly them in front of the base handler. *)

Local Open Scope list_scope.

Definition stage_kind_eq_dec (a b : stage_kind) : {a = b} + {a <> b}.
Proof. decide equality. Defined.

Section Chain.

Variable datetime_t : Type.
Variable value_t : Type.
Variable consumer_t : Type.
Variable parse_datetime : string -> datetime_t.
Variable value_of_string : string -> value_t.

Local Abbreviation stage := (stage datetime_t value_t).
Local Abbreviation xact_handler := (xact_handler datetime_t value_t consumer_t).
Local Abbreviation chain := (@chain_xact_handlers datetime_t value_t consumer_t
                           parse_datetime value_of_string).

Implicit Types (r : report_t) (h base : xact_handler) (s : stage)
  (now : datetime_t).

(** The stage a set option contributes. *)
Definition when (c : bool) (s : stage) : list stage := if c then [s] else [].

(** [prepend l h]: the stages [l], in flow order, in front of [h]. *)
Definition prepend (l : list stage) h : xact_handler := fold_right (@Link _ _ _) h l.

(** The stages of [h] in front of the handler [base] it was built on. *)
Definition inserted h base : list stage :=
  firstn (List.length (flow h) - List.length (flow base)) (flow h).

(** [s] is a stage of class [k]. *)
Definition has_kind (k : stage_kind) (s : stage) : bool :=
  if stage_kind_eq_dec (kind_of s) k then true else false.

(** The expressions of the component stages of a list, in flow order. *)
Definition component_exprs (l : list stage) : list string :=
  flat_map (fun s => match s with Component_xacts _ _ e => [e] | _ => [] end) l.

(** [a] is met before [b] by an item that flows through [l]. *)
Definition flows_before (l : list stage) (a b : stage) : Prop :=
  exists i j, i < j /\ nth_error l i = Some a /\ nth_error l j = Some b.

(** [b] is the stage right after [a] in [l]. *)
Definition immediately_before (l : list stage) (a b : stage) : Prop :=
  exists up down, l = up ++ [a; b] ++ down.

(** The stages inserted in both modes (lines 151-209), in flow order. *)
Definition common_stages r : list stage :=
  (if comm_as_payee r then [Set_comm_as_payee _ _]
   else when (code_as_payee r) (Set_code_as_payee _ _))
  ++ when (negb (StdString.empty (predicate r))) (Filter_xacts _ _ (predicate r))
  ++ when (show_related r) (Related_xacts _ _ (show_all_related r))
  ++ when (show_inverted r) (Invert_xacts _ _).

(** The cutoff handed to [reconcile_xacts] (lines 90-92). *)
Definition reconcile_cutoff now r : datetime_t :=
  if negb (StdString.empty (reconcile_date r))
  then parse_datetime (reconcile_date r) else now.

(** The stages inserted only for individual xacts (lines 47-149), in flow
    order, in five groups around calc. *)

(** [remember_components] after line 84. *)
Definition remembers r : bool := negb (StdString.empty (descend_expr r)).

Definition interval_stages r : list stage :=
  if negb (StdString.empty (report_period r))
  then [Sort_xacts _ _ "d"; Interval_xacts _ _ (report_period r) (remembers r)]
  else [].

Definition subtotal_stages r : list stage :=
  (if days_of_the_week r then [Dow_xacts _ _ (remembers r)]
   else when (by_payee r) (By_payee_xacts _ _ (remembers r)))
  ++ when (show_subtotal r) (Subtotal_xacts _ _ (remembers r)).

Definition reshape_stages now r : list stage :=
  when (show_collapsed r) (Collapse_xacts _ _)
  ++ when (show_revalued r) (Changed_value_xacts _ _ (show_revalued_only r))
  ++ when (negb (StdString.empty (sort_string r)))
       (if entry_sort r then Sort_entries _ _ (sort_string r)
        else Sort_xacts _ _ (sort_string r))
  ++ when (negb (StdString.empty (secondary_predicate r)))
       (Filter_xacts _ _ (secondary_predicate r))
  ++ when (negb (StdString.empty (reconcile_balance r)))
       (Reconcile_xacts (value_of_string (reconcile_balance r))
                        (reconcile_cutoff now r)).

Definition component_stages r : list stage :=
  if remembers r
  then map (@Component_xacts _ _) (split_semicolons (descend_expr r))
  else [].

Definition display_stages r : list stage :=
  when (negb (StdString.empty (display_predicate r)))
    (Filter_xacts _ _ (display_predicate r))
  ++ when (negb (head_entries r =? 0)%Z || negb (tail_entries r =? 0)%Z)
       (Truncate_entries _ _ (head_entries r) (tail_entries r)).

Definition individual_stages now r : list stage :=
  interval_stages r ++ subtotal_stages r ++ reshape_stages now r
  ++ component_stages r ++ [Calc_xacts _ _] ++ display_stages r.

(** The kinds of the stages inserted in both modes. *)
Definition common_kinds : list stage_kind :=
  [K_comm_as_payee; K_code_as_payee; K_filter; K_related; K_invert].

(** * Properties *)

(** ** The splitting loop computes the segments *)

Lemma substr_from_0 (s : string) : StdString.substr_from s 0 = s.
Proof.
  unfold StdString.substr_from. rewrite Nat.sub_0_r.
  induction s as [|a s IH]; simpl; [reflexivity | now rewrite IH].
Qed.

Lemma substr_from_S (a : ascii) (s : string) (b : nat) :
  StdString.substr_from (String a s) (S b) = StdString.substr_from s b.
Proof. reflexivity. Qed.

Lemma split_semicolons_not_nil (s : string) : split_semicolons s <> [].
Proof.
  induction s as [|a s IH]; simpl; [discriminate|].
  destruct (Ascii.eqb a ";"); [discriminate|].
  destruct (split_semicolons s); [contradiction | discriminate].
Qed.

(** One test of the loop condition: either no semicolon is left and the rest
    is the last segment, or the next segment ends at [pos]. *)
Lemma find_segment (s : string) :
  forall beg, beg <= String.length s ->
    match StdString.find s ";" beg with
    | None =>
        split_semicolons (StdString.substr_from s beg) = [StdString.substr_from s beg]
    | Some p =>
        split_semicolons (StdString.substr_from s beg)
        = StdString.substr s beg (p - beg)
            :: split_semicolons (StdString.substr_from s (p + 1))
    end.
Proof.
  induction s as [|a s IH]; intros beg Hbeg.
  - destruct beg; reflexivity.
  - destruct beg as [|b].
    + rewrite substr_from_0. simpl StdString.find. simpl split_semicolons.
      destruct (Ascii.eqb a ";") eqn:Ha.
      * change (0 + 1) with 1. rewrite substr_from_S, substr_from_0.
        reflexivity.
      * specialize (IH 0 (Nat.le_0_l _)). rewrite substr_from_0 in IH.
        destruct (StdString.find s ";" 0) as [p|]; simpl option_map; cbv iota.
        -- rewrite IH. unfold StdString.substr.
           rewrite !Nat.sub_0_r, !Nat.add_1_r, substr_from_S.
           reflexivity.
        -- rewrite IH. reflexivity.
    + simpl in Hbeg. specialize (IH b (le_S_n _ _ Hbeg)).
      rewrite substr_from_S. simpl StdString.find.
      destruct (StdString.find s ";" b) as [p|]; simpl option_map; cbv iota.
      * rewrite IH. unfold StdString.substr.
        rewrite !Nat.add_1_r, substr_from_S. reflexivity.
      * exact IH.
Qed.

Lemma descend_exprs_loop_split (s : string) (beg : nat) (pos : option nat)
    (acc : list string) :
  beg <= String.length s ->
  pos = StdString.find s ";" beg ->
  descend_exprs_loop s beg pos acc
  = acc ++ split_semicolons (StdString.substr_from s beg).
Proof.
  funelim (descend_exprs_loop s beg pos acc); intros Hbeg Hpos;
    pose proof (find_segment s Hbeg) as Hseg; rewrite <- Hpos in Hseg.
  - (* another turn of the loop *)
    symmetry in Hpos. apply find_bounds in Hpos.
    rewrite H by (reflexivity || lia).
    rewrite Hseg, <- app_assoc. reflexivity.
  - (* [pos == npos]: line 75 *)
    now rewrite Hseg.
Qed.

(** The list [descend_exprs] after line 75. *)
Lemma descend_exprs_split (s : string) :
  descend_exprs_loop s 0 (StdString.find s ";" 0) [] = split_semicolons s.
Proof.
  rewrite descend_exprs_loop_split by (auto; lia).
  now rewrite substr_from_0.
Qed.

Lemma cons_head_length (a : ascii) (segs : list string) :
  segs <> [] -> List.length (cons_head a segs) = List.length segs.
Proof. destruct segs; [contradiction | reflexivity]. Qed.

Lemma split_semicolons_length (s : string) :
  List.length (split_semicolons s) = S (count_semicolons s).
Proof.
  induction s as [|a s IH]; simpl; [reflexivity|].
  destruct (Ascii.eqb a ";"); simpl.
  - now rewrite IH.
  - rewrite cons_head_length by apply split_semicolons_not_nil. exact IH.
Qed.

Lemma cons_head_app (a : ascii) (segs more : list string) :
  segs <> [] -> cons_head a (segs ++ more) = cons_head a segs ++ more.
Proof. destruct segs; [contradiction | reflexivity]. Qed.

Lemma split_semicolons_trailing (s : string) :
  split_semicolons (s ++ ";")%string = split_semicolons s ++ [""].
Proof.
  induction s as [|a s IH]; simpl; [reflexivity|].
  destruct (Ascii.eqb a ";"); rewrite IH; [reflexivity|].
  apply cons_head_app, split_semicolons_not_nil.
Qed.

(** ** The chain in flow order *)

Lemma flow_prepend (l : list stage) h : flow (prepend l h) = l ++ flow h.
Proof. induction l as [|s l IH]; simpl; [reflexivity | now rewrite IH]. Qed.

Lemma consumer_prepend (l : list stage) h : consumer (prepend l h) = consumer h.
Proof. induction l as [|s l IH]; simpl; [reflexivity | exact IH]. Qed.

Lemma prepend_app (l1 l2 : list stage) h :
  prepend l1 (prepend l2 h) = prepend (l1 ++ l2) h.
Proof. unfold prepend. now rewrite fold_right_app. Qed.

Lemma link_when (c : bool) s h :
  (if c then Link s h else h) = prepend (when c s) h.
Proof. destruct c; reflexivity. Qed.

Lemma link_choice (c1 c2 : bool) s1 s2 h :
  (if c1 then Link s1 h else if c2 then Link s2 h else h)
  = prepend (if c1 then [s1] else when c2 s2) h.
Proof. destruct c1, c2; reflexivity. Qed.

Lemma link_either (c e : bool) s1 s2 h :
  (if c then if e then Link s1 h else Link s2 h else h)
  = prepend (when c (if e then s1 else s2)) h.
Proof. destruct c, e; reflexivity. Qed.

Lemma link_pair (c : bool) s1 s2 h :
  (if c then Link s1 (Link s2 h) else h)
  = prepend (if c then [s1; s2] else []) h.
Proof. destruct c; reflexivity. Qed.

Lemma link_one s h : Link s h = prepend [s] h.
Proof. reflexivity. Qed.

(** The reverse iteration of lines 77-81 puts the handler of the first
    expression in front. *)
Lemma link_components (exprs : list string) h :
  fold_left (fun h' i => component_xacts h' i) (rev exprs) h
  = prepend (map (@Component_xacts datetime_t value_t) exprs) h.
Proof.
  induction exprs as [|e exprs IH]; simpl; [reflexivity|].
  now rewrite fold_left_app, <- IH.
Qed.

(** One statement of the function at a time: the handler a statement
    builds is named, and described as stages in front of the handler
    before it. *)
Ltac describe E :=
  unfold truncate_entries, filter_xacts, calc_xacts, reconcile_xacts,
    sort_entries, sort_xacts, changed_value_xacts, collapse_xacts,
    subtotal_xacts, dow_xacts, by_payee_xacts, interval_xacts, invert_xacts,
    related_xacts, set_comm_as_payee, set_code_as_payee in E;
  first [ rewrite link_choice in E | rewrite link_either in E
        | rewrite link_pair in E | rewrite link_when in E
        | rewrite link_components in E | rewrite link_one in E ].

Ltac statement :=
  match goal with
  | |- context [let x := ?a in _] =>
      let h := fresh "h" in
      let E := fresh "E" in
      remember a as h eqn:E;
      try match goal with
          | |- context C [let x := h in @?B x] =>
              let t := eval cbv beta in (B h) in
              let g := context C [t] in
              change g
          end;
      first [ describe E | subst h ]
  end.

Ltac statements :=
  repeat first [ statement | progress cbv beta iota ];
  subst; rewrite ?prepend_app.

Lemma chain_prepend now r base (handle_individual_xacts : bool) :
  chain now r base handle_individual_xacts
  = prepend (common_stages r
             ++ (if handle_individual_xacts then individual_stages now r else []))
            base.
Proof.
  cbv beta delta [chain_xact_handlers].
  destruct handle_individual_xacts.
  - destruct (StdString.empty (descend_expr r)) eqn:Hd;
      [change (negb true) with false | change (negb false) with true];
      cbv iota; statements; rewrite ?descend_exprs_split;
      unfold common_stages, individual_stages, interval_stages,
        subtotal_stages, reshape_stages, component_stages, display_stages,
        reconcile_cutoff, remembers;
      rewrite Hd; rewrite <- ?app_assoc; reflexivity.
  - statements. unfold common_stages. rewrite <- ?app_assoc, app_nil_r.
    reflexivity.
Qed.

Lemma flow_chain now r base (handle_individual_xacts : bool) :
  flow (chain now r base handle_individual_xacts)
  = common_stages r
    ++ (if handle_individual_xacts then individual_stages now r else [])
    ++ flow base.
Proof. now rewrite chain_prepend, flow_prepend, <- app_assoc. Qed.


(** *** What each group of stages contains *)

Ltac stage_cases H :=
  repeat match type of H with
         | In _ (_ ++ _) => apply in_app_or in H; destruct H as [H|H]
         end;
  unfold when in H;
  repeat match type of H with
         | context [if ?c then _ else _] => destruct c
         end;
  simpl in H;
  repeat match type of H with
         | _ \/ _ => destruct H as [H|H]
         | False => contradiction
         end;
  try subst.

Lemma common_stages_kinds r s :
  In s (common_stages r) -> In (kind_of s) common_kinds.
Proof.
  unfold common_stages, common_kinds. intros H.
  stage_cases H; simpl; tauto.
Qed.

Lemma interval_stages_kinds r s :
  In s (interval_stages r) ->
  s = Sort_xacts _ _ "d"
  \/ s = Interval_xacts _ _ (report_period r) (remembers r).
Proof. unfold interval_stages. intros H. stage_cases H; auto. Qed.

Lemma subtotal_stages_kinds r s :
  In s (subtotal_stages r) ->
  s = Dow_xacts _ _ (remembers r) \/ s = By_payee_xacts _ _ (remembers r)
  \/ s = Subtotal_xacts _ _ (remembers r).
Proof. unfold subtotal_stages. intros H. stage_cases H; auto. Qed.

Lemma reshape_stages_kinds now r s :
  In s (reshape_stages now r) ->
  In (kind_of s)
     [K_collapse; K_changed_value; K_sort_entries; K_sort_xacts; K_filter;
      K_reconcile].
Proof.
  unfold reshape_stages. intros H. stage_cases H; simpl; tauto.
Qed.

Lemma component_stages_kinds r s :
  In s (component_stages r) ->
  remembers r = true
  /\ exists e, s = Component_xacts _ _ e /\ In e (split_semicolons (descend_expr r)).
Proof.
  unfold component_stages. destruct (remembers r); [|contradiction].
  intros H. apply in_map_iff in H. destruct H as (e & <- & He). eauto.
Qed.

Lemma display_stages_kinds r s :
  In s (display_stages r) -> kind_of s = K_filter \/ kind_of s = K_truncate.
Proof. unfold display_stages. intros H. stage_cases H; auto. Qed.

(** A stage of the chain in front of [Calc_xacts]. *)
Lemma upstream_of_calc_kinds now r s :
  In s (common_stages r ++ interval_stages r ++ subtotal_stages r
        ++ reshape_stages now r ++ component_stages r) ->
  kind_of s <> K_calc.
Proof.
  rewrite !in_app_iff. intros [H|[H|[H|[H|H]]]].
  - apply common_stages_kinds in H. unfold common_kinds in H. simpl in H.
    intuition congruence.
  - apply interval_stages_kinds in H. destruct H as [-> | ->]; discriminate.
  - apply subtotal_stages_kinds in H.
    destruct H as [-> | [-> | ->]]; discriminate.
  - apply reshape_stages_kinds in H. simpl in H. intuition congruence.
  - apply component_stages_kinds in H. destruct H as (_ & e & -> & _).
    discriminate.
Qed.

Lemma split_semicolons_head (d : string) :
  exists e rest, split_semicolons d = e :: rest.
Proof.
  destruct (split_semicolons d) as [|e rest] eqn:E.
  - now apply split_semicolons_not_nil in E.
  - eauto.
Qed.

Lemma inserted_prepend (l : list stage) base : inserted (prepend l base) base = l.
Proof.
  unfold inserted. rewrite flow_prepend, length_app, Nat.add_sub.
  rewrite firstn_app, firstn_all, Nat.sub_diag, firstn_O.
  apply app_nil_r.
Qed.

Lemma inserted_chain now r base (handle_individual_xacts : bool) :
  inserted (chain now r base handle_individual_xacts) base
  = common_stages r
    ++ (if handle_individual_xacts then individual_stages now r else []).
Proof. now rewrite chain_prepend, inserted_prepend. Qed.

Lemma filter_none {A : Type} (f : A -> bool) (l : list A) :
  (forall x, In x l -> f x = false) -> filter f l = [].
Proof.
  induction l as [|x l IH]; simpl; intros H; [reflexivity|].
  rewrite (H x) by auto. apply IH. auto.
Qed.

Lemma filter_all {A : Type} (f : A -> bool) (l : list A) :
  (forall x, In x l -> f x = true) -> filter f l = l.
Proof.
  induction l as [|x l IH]; simpl; intros H; [reflexivity|].
  rewrite (H x) by auto. f_equal. apply IH. auto.
Qed.

Lemma component_exprs_app (l1 l2 : list stage) :
  component_exprs (l1 ++ l2) = component_exprs l1 ++ component_exprs l2.
Proof. apply flat_map_app. Qed.

Lemma component_exprs_none (l : list stage) :
  (forall s, In s l -> kind_of s <> K_component) -> component_exprs l = [].
Proof.
  induction l as [|s l IH]; simpl; intros H; [reflexivity|].
  rewrite IH by auto.
  destruct s; try reflexivity. now destruct (H (Component_xacts _ _ expr)); auto.
Qed.

Lemma component_exprs_map (exprs : list string) :
  component_exprs (map (@Component_xacts datetime_t value_t) exprs) = exprs.
Proof.
  induction exprs as [|e exprs IH]; simpl; [reflexivity | now rewrite IH].
Qed.

Lemma common_not_component r s :
  In s (common_stages r) -> kind_of s <> K_component.
Proof.
  intros H. apply common_stages_kinds in H. unfold common_kinds in H.
  simpl in H. intuition congruence.
Qed.

Lemma interval_not_component r s :
  In s (interval_stages r) -> kind_of s <> K_component.
Proof.
  intros H. apply interval_stages_kinds in H.
  destruct H as [-> | ->]; discriminate.
Qed.

Lemma subtotal_not_component r s :
  In s (subtotal_stages r) -> kind_of s <> K_component.
Proof.
  intros H. apply subtotal_stages_kinds in H.
  destruct H as [-> | [-> | ->]]; discriminate.
Qed.

Lemma reshape_not_component now r s :
  In s (reshape_stages now r) -> kind_of s <> K_component.
Proof.
  intros H. apply reshape_stages_kinds in H. simpl in H. intuition congruence.
Qed.

Lemma display_not_component r s :
  In s ([Calc_xacts _ _] ++ display_stages r) -> kind_of s <> K_component.
Proof.
  intros [<- | H]; [discriminate|].
  apply display_stages_kinds in H. destruct H as [H | H]; congruence.
Qed.

(** The expressions of the component stages the builder inserts. *)
Lemma component_exprs_inserted now r base (handle_individual_xacts : bool) :
  component_exprs (inserted (chain now r base handle_individual_xacts) base)
  = if handle_individual_xacts && remembers r
    then split_semicolons (descend_expr r) else [].
Proof.
  rewrite inserted_chain, component_exprs_app.
  rewrite (component_exprs_none (common_stages r)) by apply common_not_component.
  destruct handle_individual_xacts; [|reflexivity].
  unfold individual_stages. rewrite !component_exprs_app.
  rewrite (component_exprs_none (interval_stages r))
    by apply interval_not_component.
  rewrite (component_exprs_none (subtotal_stages r))
    by apply subtotal_not_component.
  rewrite (component_exprs_none (reshape_stages now r))
    by apply reshape_not_component.
  rewrite <- component_exprs_app.
  rewrite (component_exprs_none ([Calc_xacts _ _] ++ display_stages r))
    by apply display_not_component.
  unfold component_stages. simpl.
  destruct (remembers r); [|reflexivity].
  now rewrite component_exprs_map, app_nil_r.
Qed.

(** *** The stages gated by [handle_individual_xacts] *)

(** Claim C7.  With [handle_individual_xacts] false the builder inserts
    exactly the payee substitution, the filter on [predicate], the related
    expansion and the inversion, each when its option is set; with it true
    the same four are inserted in front of the stages of lines 47-149
    (truncate, display filter, calc, components, reconcile, secondary
    filter, sort, revalue, collapse, subtotal family, interval), which are
    therefore inserted only for individual xacts. *)
Theorem individual_mode_gating now r base :
  flow (chain now r base false)
  = (if comm_as_payee r then [Set_comm_as_payee _ _]
     else when (code_as_payee r) (Set_code_as_payee _ _))
    ++ when (negb (StdString.empty (predicate r))) (Filter_xacts _ _ (predicate r))
    ++ when (show_related r) (Related_xacts _ _ (show_all_related r))
    ++ when (show_inverted r) (Invert_xacts _ _)
    ++ flow base
  /\ flow (chain now r base true)
     = inserted (chain now r base false) base
       ++ individual_stages now r ++ flow base
  /\ Forall (fun s => In (kind_of s)
               [K_comm_as_payee; K_code_as_payee; K_filter; K_related; K_invert])
            (inserted (chain now r base false) base)
  /\ Forall (fun s => In (kind_of s)
               [K_truncate; K_filter; K_calc; K_component; K_reconcile;
                K_sort_entries; K_sort_xacts; K_changed_value; K_collapse;
                K_subtotal; K_dow; K_by_payee; K_interval])
            (individual_stages now r).
Proof.
  repeat split.
  - rewrite flow_chain. unfold common_stages. now rewrite <- !app_assoc.
  - now rewrite flow_chain, inserted_chain, app_nil_r.
  - rewrite inserted_chain, app_nil_r. apply Forall_forall.
    intros s H. now apply common_stages_kinds in H.
  - apply Forall_forall. intros s. unfold individual_stages.
    rewrite !in_app_iff. intros [H|[H|[H|[H|[H|H]]]]].
    + apply interval_stages_kinds in H. destruct H as [-> | ->]; simpl; tauto.
    + apply subtotal_stages_kinds in H.
      destruct H as [-> | [-> | ->]]; simpl; tauto.
    + apply reshape_stages_kinds in H. simpl in *. tauto.
    + apply component_stages_kinds in H. destruct H as (_ & e & -> & _).
      simpl. tauto.
    + destruct H as [<- | []]. simpl. tauto.
    + apply display_stages_kinds in H. simpl. destruct H as [-> | ->]; tauto.
Qed.

(** *** Calc and the display filter *)

(** Claim C1, as the code has it.  With a display predicate set, the calc
    stage is the stage right before the display filter in flow order: an
    item is added to the running total first and meets the display
    predicate afterwards, so the display filter (and the truncation behind
    it) does not affect the running total.  No stage in front of calc is
    a calc stage. *)
Theorem calc_upstream_of_display_filter now r base :
  StdString.empty (display_predicate r) = false ->
  exists up,
    flow (chain now r base true)
    = up ++ [Calc_xacts _ _; Filter_xacts _ _ (display_predicate r)]
         ++ when (negb (head_entries r =? 0)%Z || negb (tail_entries r =? 0)%Z)
              (Truncate_entries _ _ (head_entries r) (tail_entries r))
         ++ flow base
    /\ Forall (fun s => kind_of s <> K_calc) up.
Proof.
  intros Hd.
  exists (common_stages r ++ interval_stages r ++ subtotal_stages r
          ++ reshape_stages now r ++ component_stages r).
  split.
  - rewrite flow_chain. unfold individual_stages, display_stages.
    rewrite Hd. rewrite <- !app_assoc. reflexivity.
  - apply Forall_forall. intros s. apply upstream_of_calc_kinds.
Qed.

(** *** The subtotal family *)

(** Claim C2, as the code has it.  Of the day-of-week and by-payee stages
    at most one is inserted, day-of-week first; the plain subtotal stage
    is inserted whenever [show_subtotal] is set, whatever the other two
    options are, downstream of the day-of-week or by-payee stage. *)
Theorem subtotal_family_inserted now r base (handle_individual_xacts : bool) :
  filter (@is_subtotal_family _ _)
         (inserted (chain now r base handle_individual_xacts) base)
  = if handle_individual_xacts
    then (if days_of_the_week r
          then [Dow_xacts _ _ (negb (StdString.empty (descend_expr r)))]
          else when (by_payee r)
                 (By_payee_xacts _ _ (negb (StdString.empty (descend_expr r)))))
         ++ when (show_subtotal r)
              (Subtotal_xacts _ _ (negb (StdString.empty (descend_expr r))))
    else [].
Proof.
  rewrite inserted_chain, filter_app.
  rewrite (filter_none _ (common_stages r)).
  2:{ intros s H. apply common_stages_kinds in H. unfold common_kinds in H.
      destruct s; simpl in *; intuition congruence. }
  destruct handle_individual_xacts; [|reflexivity].
  unfold individual_stages. rewrite !filter_app.
  rewrite (filter_none _ (interval_stages r)).
  2:{ intros s H. apply interval_stages_kinds in H.
      destruct H as [-> | ->]; reflexivity. }
  rewrite (filter_all _ (subtotal_stages r)).
  2:{ intros s H. apply subtotal_stages_kinds in H.
      destruct H as [-> | [-> | ->]]; reflexivity. }
  rewrite (filter_none _ (reshape_stages now r)).
  2:{ intros s H. apply reshape_stages_kinds in H.
      destruct s; simpl in *; intuition congruence. }
  rewrite (filter_none _ (component_stages r)).
  2:{ intros s H. apply component_stages_kinds in H.
      destruct H as (_ & e & -> & _). reflexivity. }
  rewrite (filter_none _ (display_stages r)).
  2:{ intros s H. apply display_stages_kinds in H.
      destruct s; simpl in *; intuition congruence. }
  simpl. rewrite app_nil_r. reflexivity.
Qed.

(** *** The interval stage and its date sort *)

(** Claim C3, as the code has it.  With a report period set, the forced
    date sort is the stage right before the interval stage in flow order,
    behind the stages inserted in both modes: it orders by date the items
    the interval stage receives.  No other interval stage is inserted. *)
Theorem date_sort_upstream_of_interval now r base :
  StdString.empty (report_period r) = false ->
  exists down,
    flow (chain now r base true)
    = common_stages r
      ++ [Sort_xacts _ _ "d";
          Interval_xacts _ _ (report_period r)
            (negb (StdString.empty (descend_expr r)))]
      ++ down ++ flow base
    /\ Forall (fun s => kind_of s <> K_interval) (common_stages r ++ down).
Proof.
  intros Hp.
  exists (subtotal_stages r ++ reshape_stages now r ++ component_stages r
          ++ [Calc_xacts _ _] ++ display_stages r).
  split.
  - rewrite flow_chain. unfold individual_stages, interval_stages.
    rewrite Hp. rewrite <- !app_assoc. reflexivity.
  - apply Forall_forall. intros s. rewrite !in_app_iff.
    intros [H|[H|[H|[H|[H|H]]]]].
    + apply common_stages_kinds in H. unfold common_kinds in H. simpl in H.
      intuition congruence.
    + apply subtotal_stages_kinds in H.
      destruct H as [-> | [-> | ->]]; discriminate.
    + apply reshape_stages_kinds in H. simpl in H. intuition congruence.
    + apply component_stages_kinds in H. destruct H as (_ & e & -> & _).
      discriminate.
    + destruct H as [<- | []]. discriminate.
    + apply display_stages_kinds in H. destruct H as [H | H]; congruence.
Qed.

(** *** The component stages *)

(** Claim C4.  For a non-empty [descend_expr] the builder inserts one
    component stage per segment between semicolons, one more than there
    are semicolons, next to each other and in the order the expressions
    are written: the stage of the first expression is the first of them
    an item meets.  No other component stage is inserted. *)
Theorem component_stages_in_written_order now r base :
  StdString.empty (descend_expr r) = false ->
  exists up down,
    flow (chain now r base true)
    = up ++ map (@Component_xacts _ _) (split_semicolons (descend_expr r))
         ++ down ++ flow base
    /\ Forall (fun s => kind_of s <> K_component) up
    /\ Forall (fun s => kind_of s <> K_component) down
    /\ List.length (split_semicolons (descend_expr r))
       = S (count_semicolons (descend_expr r))
    /\ descend_exprs_loop (descend_expr r) 0
         (StdString.find (descend_expr r) ";" 0) []
       = split_semicolons (descend_expr r).
Proof.
  intros Hd.
  exists (common_stages r ++ interval_stages r ++ subtotal_stages r
          ++ reshape_stages now r),
         ([Calc_xacts _ _] ++ display_stages r).
  repeat split.
  - rewrite flow_chain. unfold individual_stages, component_stages, remembers.
    rewrite Hd. simpl negb. cbv iota. rewrite <- !app_assoc. reflexivity.
  - apply Forall_forall. intros s. rewrite !in_app_iff.
    intros [H|[H|[H|H]]].
    + now apply common_not_component in H.
    + now apply interval_not_component in H.
    + now apply subtotal_not_component in H.
    + now apply reshape_not_component in H.
  - apply Forall_forall. intros s. apply display_not_component.
  - apply split_semicolons_length.
  - apply descend_exprs_split.
Qed.

Lemma empty_trailing_semicolon (d : string) :
  StdString.empty (d ++ ";")%string = false.
Proof. destruct d; reflexivity. Qed.

(** Claim C6.  The component stages carry the segments of [descend_expr]
    between semicolons, one stage per segment, empty segments included: a
    [descend_expr] that ends in a semicolon gives a last stage whose
    expression is the empty string.  An empty [descend_expr] gives no
    component stage at all. *)
Theorem descend_expr_segments now r base (d : string) :
  component_exprs
    (inserted (chain now (set_descend_expr r (d ++ ";")%string) base true) base)
  = split_semicolons d ++ [""]
  /\ component_exprs
       (inserted (chain now (set_descend_expr r "") base true) base) = []
  /\ component_exprs (inserted (chain now r base true) base)
     = (if StdString.empty (descend_expr r) then []
        else split_semicolons (descend_expr r))
  /\ List.length (component_exprs (inserted (chain now r base true) base))
     = (if StdString.empty (descend_expr r) then 0
        else S (count_semicolons (descend_expr r))).
Proof.
  rewrite !component_exprs_inserted. unfold remembers. simpl.
  rewrite empty_trailing_semicolon. simpl.
  repeat split.
  - apply split_semicolons_trailing.
  - destruct (StdString.empty (descend_expr r)); reflexivity.
  - destruct (StdString.empty (descend_expr r)); simpl;
      [reflexivity | apply split_semicolons_length].
Qed.

(** *** The [remember_components] argument *)

Lemma flag_in_common r s (b : bool) :
  In s (common_stages r) -> remember_flag s = Some b -> False.
Proof.
  intros H. apply common_stages_kinds in H. unfold common_kinds in H.
  destruct s; simpl in *; intuition congruence.
Qed.

Lemma flag_in_individual now r s (b : bool) :
  In s (individual_stages now r) -> remember_flag s = Some b ->
  b = remembers r.
Proof.
  unfold individual_stages. rewrite !in_app_iff.
  intros [H|[H|[H|[H|[H|H]]]]] Hb.
  - apply interval_stages_kinds in H. destruct H as [-> | ->]; simpl in Hb;
      congruence.
  - apply subtotal_stages_kinds in H.
    destruct H as [-> | [-> | ->]]; simpl in Hb; congruence.
  - apply reshape_stages_kinds in H.
    destruct s; simpl in *; intuition congruence.
  - apply component_stages_kinds in H. destruct H as (_ & e & -> & _).
    discriminate.
  - destruct H as [<- | []]. discriminate.
  - apply display_stages_kinds in H.
    destruct s; simpl in *; intuition congruence.
Qed.

Lemma component_in_individual now r (e : string) :
  In (Component_xacts _ _ e) (individual_stages now r) -> remembers r = true.
Proof.
  unfold individual_stages. rewrite !in_app_iff.
  intros [H|[H|[H|[H|[H|H]]]]].
  - now apply interval_not_component in H.
  - now apply subtotal_not_component in H.
  - now apply reshape_not_component in H.
  - now apply component_stages_kinds in H.
  - destruct H as [H | []]. discriminate.
  - apply display_stages_kinds in H. destruct H as [H | H]; discriminate.
Qed.

(** Claim C10.  Every subtotal, day-of-week, by-payee and interval stage
    the builder inserts is constructed with [remember_components] true
    exactly when [descend_expr] is not empty, which is exactly when a
    component stage is inserted into the same chain. *)
Theorem remember_components_flag now r base (handle_individual_xacts : bool)
    s (b : bool) :
  In s (inserted (chain now r base handle_individual_xacts) base) ->
  remember_flag s = Some b ->
  b = negb (StdString.empty (descend_expr r))
  /\ (b = true <->
      exists e, In (Component_xacts _ _ e)
                   (inserted (chain now r base handle_individual_xacts) base)).
Proof.
  rewrite inserted_chain, in_app_iff. intros [Hs | Hs] Hb.
  { destruct (flag_in_common _ _ Hs Hb). }
  destruct handle_individual_xacts; [|contradiction].
  pose proof (flag_in_individual _ _ _ Hs Hb) as ->.
  split; [reflexivity|]. split.
  - intros Hr. destruct (split_semicolons_head (descend_expr r)) as (e & rest & He).
    exists e. apply in_or_app. right. unfold individual_stages.
    rewrite !in_app_iff. right. right. right. left.
    unfold component_stages. rewrite Hr, He. now left.
  - intros (e & He). apply in_app_or in He. destruct He as [He | He].
    + now apply common_not_component in He.
    + now apply component_in_individual in He.
Qed.

(** *** What the chain depends on *)

Lemma reshape_stages_kinds_clock now1 now2 r :
  map (@kind_of _ _) (reshape_stages now1 r)
  = map (@kind_of _ _) (reshape_stages now2 r).
Proof.
  unfold reshape_stages. rewrite !map_app. do 4 f_equal.
  destruct (negb (StdString.empty (reconcile_balance r))); reflexivity.
Qed.

(** Claim C8, as the code has it.  The chain is a function of the report
    options, the base handler, the mode and the clock ([current_moment],
    read at line 90).  The kinds of the stages, their order and the
    consumer never depend on the clock; the whole chain is independent of
    it when xacts are not handled individually, when no reconcile balance
    is set, or when a reconcile date is given. *)
Theorem chain_depends_on_clock now1 now2 r base
    (handle_individual_xacts : bool) :
  map (@kind_of _ _) (flow (chain now1 r base handle_individual_xacts))
  = map (@kind_of _ _) (flow (chain now2 r base handle_individual_xacts))
  /\ consumer (chain now1 r base handle_individual_xacts)
     = consumer (chain now2 r base handle_individual_xacts)
  /\ (handle_individual_xacts = false
      \/ StdString.empty (reconcile_balance r) = true
      \/ StdString.empty (reconcile_date r) = false ->
      chain now1 r base handle_individual_xacts
      = chain now2 r base handle_individual_xacts).
Proof.
  repeat split.
  - rewrite !flow_chain, !map_app. do 2 f_equal.
    destruct handle_individual_xacts; [|reflexivity].
    unfold individual_stages. rewrite !map_app. do 2 f_equal.
    f_equal. apply reshape_stages_kinds_clock.
  - now rewrite !chain_prepend, !consumer_prepend.
  - intros H. rewrite !chain_prepend. do 2 f_equal.
    destruct handle_individual_xacts; [|reflexivity].
    unfold individual_stages, reshape_stages, reconcile_cutoff.
    destruct H as [H | [H | H]]; [discriminate | |]; now rewrite H.
Qed.

(** *** Further properties of the builder *)

Lemma when_nil (c : bool) s : when c s = [] -> c = false.
Proof. destruct c; [discriminate | reflexivity]. Qed.

Lemma individual_stages_kinds now r s :
  In s (individual_stages now r) ->
  In (kind_of s)
     [K_truncate; K_filter; K_calc; K_component; K_reconcile; K_sort_entries;
      K_sort_xacts; K_changed_value; K_collapse; K_subtotal; K_dow;
      K_by_payee; K_interval].
Proof.
  unfold individual_stages.
  rewrite !in_app_iff. intros [H|[H|[H|[H|[H|H]]]]].
  - apply interval_stages_kinds in H. destruct H as [-> | ->]; simpl; tauto.
  - apply subtotal_stages_kinds in H.
    destruct H as [-> | [-> | ->]]; simpl; tauto.
  - apply reshape_stages_kinds in H. simpl in *. tauto.
  - apply component_stages_kinds in H. destruct H as (_ & e & -> & _).
    simpl. tauto.
  - destruct H as [<- | []]. simpl. tauto.
  - apply display_stages_kinds in H. simpl. destruct H as [-> | ->]; tauto.
Qed.

Lemma common_stages_nil r :
  common_stages r = [] <->
  show_inverted r = false /\ show_related r = false
  /\ StdString.empty (predicate r) = true
  /\ comm_as_payee r = false /\ code_as_payee r = false.
Proof.
  unfold common_stages. split.
  - intros H.
    apply app_eq_nil in H. destruct H as [H1 H].
    apply app_eq_nil in H. destruct H as [H2 H].
    apply app_eq_nil in H. destruct H as [H3 H4].
    apply when_nil in H2, H3, H4.
    destruct (comm_as_payee r); [discriminate|]. apply when_nil in H1.
    destruct (StdString.empty (predicate r)); [|discriminate]. auto.
  - intros (-> & -> & -> & -> & ->). reflexivity.
Qed.

(** X1.  Without individual handling the builder returns the base handler
    itself exactly when none of the inversion, related, predicate and payee
    options is set. *)
Theorem aggregate_chain_is_base now r base :
  chain now r base false = base <->
  show_inverted r = false /\ show_related r = false
  /\ StdString.empty (predicate r) = true
  /\ comm_as_payee r = false /\ code_as_payee r = false.
Proof.
  rewrite chain_prepend, app_nil_r, <- common_stages_nil. split.
  - intros H. apply (f_equal (@flow _ _ _)) in H. rewrite flow_prepend in H.
    apply (app_inv_tail (flow base) (common_stages r) []). exact H.
  - intros ->. reflexivity.
Qed.

Lemma individual_stages_only_calc now r :
  individual_stages now r = [Calc_xacts _ _] <->
  StdString.empty (report_period r) = true
  /\ days_of_the_week r = false /\ by_payee r = false
  /\ show_subtotal r = false /\ show_collapsed r = false
  /\ show_revalued r = false /\ StdString.empty (sort_string r) = true
  /\ StdString.empty (secondary_predicate r) = true
  /\ StdString.empty (reconcile_balance r) = true
  /\ StdString.empty (descend_expr r) = true
  /\ StdString.empty (display_predicate r) = true
  /\ head_entries r = 0%Z /\ tail_entries r = 0%Z.
Proof.
  split.
  - intros H. pose proof (f_equal (@List.length _) H) as L.
    unfold individual_stages, interval_stages, subtotal_stages, reshape_stages,
      component_stages, display_stages, remembers in L.
    rewrite !length_app in L.
    pose proof (split_semicolons_length (descend_expr r)) as Ls.
    rewrite <- (length_map (@Component_xacts datetime_t value_t)) in Ls.
    unfold when in L.
    destruct (StdString.empty (report_period r)); simpl in L; [|lia].
    destruct (days_of_the_week r); simpl in L; [lia|].
    destruct (by_payee r); simpl in L; [lia|].
    destruct (show_subtotal r); simpl in L; [lia|].
    destruct (show_collapsed r); simpl in L; [lia|].
    destruct (show_revalued r); simpl in L; [lia|].
    destruct (StdString.empty (sort_string r)); simpl in L; [|lia].
    destruct (StdString.empty (secondary_predicate r)); simpl in L; [|lia].
    destruct (StdString.empty (reconcile_balance r)); simpl in L; [|lia].
    destruct (StdString.empty (descend_expr r)); simpl in L; [|lia].
    destruct (StdString.empty (display_predicate r)); simpl in L; [|lia].
    destruct (head_entries r =? 0)%Z eqn:Hh; simpl in L; [|lia].
    destruct (tail_entries r =? 0)%Z eqn:Ht; simpl in L; [|lia].
    apply Z.eqb_eq in Hh, Ht. repeat split; assumption.
  - intros (Hp & Hw & Hy & Hs & Hc & Hv & Ho & H2 & Hb & Hd & H1 & Hh & Ht).
    unfold individual_stages, interval_stages, subtotal_stages, reshape_stages,
      component_stages, display_stages, remembers.
    rewrite Hp, Hw, Hy, Hs, Hc, Hv, Ho, H2, Hb, Hd, H1, Hh, Ht. reflexivity.
Qed.

Lemma individual_stages_length now r : 1 <= List.length (individual_stages now r).
Proof. unfold individual_stages. rewrite !length_app. simpl. lia. Qed.

(** X2.  With individual handling the builder returns calc in front of
    the base handler, and nothing else, exactly when none of the options
    that insert a stage is set: the five of the aggregate mode, the report
    period, the three subtotal flags, [show_collapsed], [show_revalued], the
    sort string, the secondary predicate, the reconcile balance,
    [descend_expr], the display predicate and the two entry counts.  The
    flags that only qualify another option ([entry_sort],
    [show_revalued_only], [show_all_related]) and the reconcile date are
    free: set alone they insert nothing. *)
Theorem individual_chain_is_calc now r base :
  chain now r base true = calc_xacts base <->
  (show_inverted r = false /\ show_related r = false
   /\ StdString.empty (predicate r) = true
   /\ comm_as_payee r = false /\ code_as_payee r = false)
  /\ StdString.empty (report_period r) = true
  /\ days_of_the_week r = false /\ by_payee r = false
  /\ show_subtotal r = false /\ show_collapsed r = false
  /\ show_revalued r = false /\ StdString.empty (sort_string r) = true
  /\ StdString.empty (secondary_predicate r) = true
  /\ StdString.empty (reconcile_balance r) = true
  /\ StdString.empty (descend_expr r) = true
  /\ StdString.empty (display_predicate r) = true
  /\ head_entries r = 0%Z /\ tail_entries r = 0%Z.
Proof.
  rewrite chain_prepend, <- common_stages_nil, <- (individual_stages_only_calc now).
  split.
  - intros H. apply (f_equal (@flow _ _ _)) in H. rewrite flow_prepend in H.
    change (flow (calc_xacts base)) with ([Calc_xacts _ _] ++ flow base) in H.
    apply app_inv_tail in H.
    pose proof (individual_stages_length now r) as Li.
    pose proof (f_equal (@List.length _) H) as L.
    rewrite length_app in L. simpl in L.
    destruct (common_stages r) as [|s0 l]; [|simpl in L; lia].
    split; [reflexivity | exact H].
  - intros [-> ->]. reflexivity.
Qed.

(** X3.  The builder only puts stages in front of the base handler: the
    stages of the base handler are the tail of the chain, unchanged, and
    the consumer of the chain is the consumer of the base handler. *)
Theorem base_handler_kept now r base (handle_individual_xacts : bool) :
  flow (chain now r base handle_individual_xacts)
  = inserted (chain now r base handle_individual_xacts) base ++ flow base
  /\ consumer (chain now r base handle_individual_xacts) = consumer base.
Proof.
  rewrite inserted_chain, chain_prepend, flow_prepend, consumer_prepend.
  split; reflexivity.
Qed.

(** X4.  Payee substitution is the first stage an item meets.
    [comm_as_payee] wins over [code_as_payee]: at most one of the two
    stages is inserted, in both modes. *)
Theorem payee_stage_first now r base (handle_individual_xacts : bool) :
  exists rest,
    inserted (chain now r base handle_individual_xacts) base
    = (if comm_as_payee r then [Set_comm_as_payee _ _]
       else if code_as_payee r then [Set_code_as_payee _ _] else [])
      ++ rest
    /\ Forall (fun s => kind_of s <> K_comm_as_payee
                        /\ kind_of s <> K_code_as_payee) rest.
Proof.
  rewrite inserted_chain. unfold common_stages.
  exists ((when (negb (StdString.empty (predicate r)))
             (Filter_xacts _ _ (predicate r))
           ++ when (show_related r) (Related_xacts _ _ (show_all_related r))
           ++ when (show_inverted r) (Invert_xacts _ _))
          ++ (if handle_individual_xacts then individual_stages now r else [])).
  split.
  - rewrite <- !app_assoc. unfold when. reflexivity.
  - apply Forall_forall. intros s H.
    apply in_app_or in H. destruct H as [H | H].
    + stage_cases H; split; discriminate.
    + destruct handle_individual_xacts; [|contradiction].
      apply individual_stages_kinds in H. simpl in H.
      split; intros E; rewrite E in H; intuition discriminate.
Qed.

(** X5.  A flag that qualifies another option is not read when that
    option is not set: [entry_sort] without a sort string,
    [show_revalued_only] without [show_revalued], [show_all_related]
    without [show_related], [by_payee] beside [days_of_the_week],
    [code_as_payee] beside [comm_as_payee], and the reconcile date without a
    reconcile balance.  The chain is the same whatever their value. *)
Theorem qualifying_flags_inert now r base (m b : bool) (d : string) :
  (StdString.empty (sort_string r) = true ->
   chain now (set_entry_sort r b) base m = chain now r base m)
  /\ (show_revalued r = false ->
      chain now (set_show_revalued_only r b) base m = chain now r base m)
  /\ (show_related r = false ->
      chain now (set_show_all_related r b) base m = chain now r base m)
  /\ (days_of_the_week r = true ->
      chain now (set_by_payee r b) base m = chain now r base m)
  /\ (comm_as_payee r = true ->
      chain now (set_code_as_payee_flag r b) base m = chain now r base m)
  /\ (StdString.empty (reconcile_balance r) = true ->
      chain now (set_reconcile_date r d) base m = chain now r base m).
Proof.
  rewrite !chain_prepend.
  unfold common_stages, individual_stages, interval_stages, subtotal_stages,
    reshape_stages, component_stages, display_stages, reconcile_cutoff,
    remembers.
  cbn [set_entry_sort set_show_revalued_only set_show_all_related set_by_payee
       set_code_as_payee_flag set_reconcile_date
       head_entries tail_entries display_predicate descend_expr
       reconcile_balance reconcile_date secondary_predicate sort_string
       entry_sort show_revalued show_revalued_only show_collapsed
       show_subtotal days_of_the_week by_payee report_period show_inverted
       show_related show_all_related predicate comm_as_payee code_as_payee].
  repeat split; intros ->; reflexivity.
Qed.

Lemma count_kind_none (k : stage_kind) (l : list stage) :
  (forall s, In s l -> kind_of s <> k) ->
  count_occ stage_kind_eq_dec (map (@kind_of _ _) l) k = 0.
Proof.
  intros H. apply count_occ_not_In. intros Hin.
  apply in_map_iff in Hin. destruct Hin as (s & Hs & Hin).
  exact (H s Hin Hs).
Qed.

Lemma common_kind_not (k : stage_kind) r s :
  ~ In k common_kinds -> In s (common_stages r) -> kind_of s <> k.
Proof.
  intros Hk H E. apply common_stages_kinds in H. rewrite E in H. auto.
Qed.

(** X6.  With individual handling exactly one calc stage is inserted,
    whatever the options; without it none is. *)
Theorem one_calc_stage now r base (handle_individual_xacts : bool) :
  count_occ stage_kind_eq_dec
    (map (@kind_of _ _)
       (inserted (chain now r base handle_individual_xacts) base)) K_calc
  = if handle_individual_xacts then 1 else 0.
Proof.
  rewrite inserted_chain, map_app, count_occ_app.
  rewrite (@count_kind_none K_calc (common_stages r)).
  2:{ intros s. apply common_kind_not. unfold common_kinds. simpl.
      intuition discriminate. }
  destruct handle_individual_xacts; [|reflexivity].
  unfold individual_stages.
  rewrite !map_app, !count_occ_app.
  rewrite (@count_kind_none K_calc (interval_stages r)).
  2:{ intros s H. apply (@upstream_of_calc_kinds now r s).
      rewrite !in_app_iff. tauto. }
  rewrite (@count_kind_none K_calc (subtotal_stages r)).
  2:{ intros s H. apply (@upstream_of_calc_kinds now r s).
      rewrite !in_app_iff. tauto. }
  rewrite (@count_kind_none K_calc (reshape_stages now r)).
  2:{ intros s H. apply (@upstream_of_calc_kinds now r s).
      rewrite !in_app_iff. tauto. }
  rewrite (@count_kind_none K_calc (component_stages r)).
  2:{ intros s H. apply (@upstream_of_calc_kinds now r s).
      rewrite !in_app_iff. tauto. }
  rewrite (@count_kind_none K_calc (display_stages r)).
  2:{ intros s H. apply display_stages_kinds in H.
      destruct H as [H | H]; congruence. }
  reflexivity.
Qed.

(** X7.  Truncation is inserted exactly when [head_entries] or
    [tail_entries] is not zero (a negative count inserts it too), with both
    counts as given, and it is the stage right in front of the base handler:
    every other stage has seen an item before truncation does. *)
Theorem truncate_stage_last now r base :
  exists up,
    inserted (chain now r base true) base
    = up ++ (if (head_entries r =? 0)%Z && (tail_entries r =? 0)%Z then []
             else [Truncate_entries _ _ (head_entries r) (tail_entries r)])
    /\ Forall (fun s => kind_of s <> K_truncate) up.
Proof.
  rewrite inserted_chain.
  exists (common_stages r ++ interval_stages r ++ subtotal_stages r
          ++ reshape_stages now r ++ component_stages r ++ [Calc_xacts _ _]
          ++ when (negb (StdString.empty (display_predicate r)))
               (Filter_xacts _ _ (display_predicate r))).
  split.
  - unfold individual_stages, display_stages. rewrite <- !app_assoc.
    do 7 f_equal. unfold when.
    destruct (head_entries r =? 0)%Z, (tail_entries r =? 0)%Z; reflexivity.
  - apply Forall_forall. intros s. rewrite !in_app_iff.
    intros [H|[H|[H|[H|[H|[H|H]]]]]].
    + apply common_stages_kinds in H. unfold common_kinds in H. simpl in H.
      intuition congruence.
    + apply interval_stages_kinds in H. destruct H as [-> | ->]; discriminate.
    + apply subtotal_stages_kinds in H.
      destruct H as [-> | [-> | ->]]; discriminate.
    + apply reshape_stages_kinds in H. simpl in H. intuition congruence.
    + apply component_stages_kinds in H. destruct H as (_ & e & -> & _).
      discriminate.
    + destruct H as [<- | []]. discriminate.
    + stage_cases H. discriminate.
Qed.

(** X8.  The reconcile stage is inserted exactly when a reconcile balance
    is given, once, with the value made from the balance string; its cutoff
    is the parsed reconcile date when one is given and the current moment
    otherwise. *)
Theorem reconcile_stage now r base :
  exists up down,
    inserted (chain now r base true) base
    = up ++ (if StdString.empty (reconcile_balance r) then []
             else [Reconcile_xacts (value_of_string (reconcile_balance r))
                     (if StdString.empty (reconcile_date r) then now
                      else parse_datetime (reconcile_date r))])
         ++ down
    /\ Forall (fun s => kind_of s <> K_reconcile) up
    /\ Forall (fun s => kind_of s <> K_reconcile) down.
Proof.
  rewrite inserted_chain.
  exists (common_stages r ++ interval_stages r ++ subtotal_stages r
          ++ when (show_collapsed r) (Collapse_xacts _ _)
          ++ when (show_revalued r) (Changed_value_xacts _ _ (show_revalued_only r))
          ++ when (negb (StdString.empty (sort_string r)))
               (if entry_sort r then Sort_entries _ _ (sort_string r)
                else Sort_xacts _ _ (sort_string r))
          ++ when (negb (StdString.empty (secondary_predicate r)))
               (Filter_xacts _ _ (secondary_predicate r))),
         (component_stages r ++ [Calc_xacts _ _] ++ display_stages r).
  repeat split.
  - unfold individual_stages, reshape_stages, reconcile_cutoff.
    rewrite <- !app_assoc. do 7 f_equal. unfold when.
    destruct (StdString.empty (reconcile_balance r)),
      (StdString.empty (reconcile_date r)); reflexivity.
  - apply Forall_forall. intros s. rewrite !in_app_iff.
    intros [H|[H|[H|H]]].
    + apply common_stages_kinds in H. unfold common_kinds in H. simpl in H.
      intuition congruence.
    + apply interval_stages_kinds in H. destruct H as [-> | ->]; discriminate.
    + apply subtotal_stages_kinds in H.
      destruct H as [-> | [-> | ->]]; discriminate.
    + stage_cases H; discriminate.
  - apply Forall_forall. intros s. rewrite !in_app_iff.
    intros [H|[H|H]].
    + apply component_stages_kinds in H. destruct H as (_ & e & -> & _).
      discriminate.
    + destruct H as [<- | []]. discriminate.
    + apply display_stages_kinds in H. destruct H as [H | H]; congruence.
Qed.

Lemma concat_cons_head (a : ascii) (seg : string) (rest : list string) :
  String.concat ";" (String a seg :: rest)
  = String a (String.concat ";" (seg :: rest)).
Proof. destruct rest; reflexivity. Qed.

(** Joining the segments with semicolons gives the string back. *)
Lemma concat_split_semicolons (s : string) :
  String.concat ";" (split_semicolons s) = s.
Proof.
  induction s as [|a s IH]; [reflexivity|].
  simpl split_semicolons.
  destruct (split_semicolons_head s) as (seg & rest & E). rewrite E in *.
  destruct (Ascii.eqb a ";") eqn:Ha.
  - apply Ascii.eqb_eq in Ha. subst a.
    change (String.concat ";" ("" :: seg :: rest))
      with (String ";" (String.concat ";" (seg :: rest))).
    now rewrite IH.
  - unfold cons_head. rewrite concat_cons_head. now rewrite IH.
Qed.

Lemma split_semicolons_no_semicolon (s : string) :
  Forall (fun seg => StdString.find seg ";" 0 = None) (split_semicolons s).
Proof.
  induction s as [|a s IH]; simpl.
  - constructor; [reflexivity | constructor].
  - destruct (Ascii.eqb a ";") eqn:Ha.
    + constructor; [reflexivity | exact IH].
    + destruct (split_semicolons s) as [|seg rest]; simpl.
      * constructor; [|constructor]. simpl. now rewrite Ha.
      * inversion IH as [|? ? Hseg Hrest]; subst.
        constructor; [|exact Hrest]. simpl. now rewrite Ha, Hseg.
Qed.

(** X9.  Nothing of [descend_expr] is lost by the split: the expressions
    of the component stages, in flow order and joined by semicolons, are
    [descend_expr] again. *)
Theorem component_exprs_join now r base :
  String.concat ";" (component_exprs (inserted (chain now r base true) base))
  = descend_expr r.
Proof.
  rewrite component_exprs_inserted. unfold remembers. simpl.
  destruct (descend_expr r) as [|a d] eqn:E; [reflexivity|].
  simpl StdString.empty. cbv iota. apply concat_split_semicolons.
Qed.

(** X10.  No component stage is given an expression with a semicolon in
    it: the split cuts at every semicolon of [descend_expr]. *)
Theorem component_exprs_no_semicolon now r base (handle_individual_xacts : bool) :
  Forall (fun e => StdString.find e ";" 0 = None)
         (component_exprs
            (inserted (chain now r base handle_individual_xacts) base)).
Proof.
  rewrite component_exprs_inserted.
  destruct (handle_individual_xacts && remembers r);
    [apply split_semicolons_no_semicolon | constructor].
Qed.

Lemma filter_when (f : stage -> bool) (c : bool) s :
  filter f (when c s) = if f s then when c s else [].
Proof. destruct c; simpl; destruct (f s); reflexivity. Qed.

(** X11.  The three predicates give three separate filter stages, met in
    the order general predicate, secondary predicate, display predicate;
    the last two only with individual handling.  No other filter stage is
    inserted. *)
Theorem filter_stages_order now r base (handle_individual_xacts : bool) :
  filter (has_kind K_filter)
         (inserted (chain now r base handle_individual_xacts) base)
  = when (negb (StdString.empty (predicate r))) (Filter_xacts _ _ (predicate r))
    ++ (if handle_individual_xacts
        then when (negb (StdString.empty (secondary_predicate r)))
               (Filter_xacts _ _ (secondary_predicate r))
             ++ when (negb (StdString.empty (display_predicate r)))
                  (Filter_xacts _ _ (display_predicate r))
        else []).
Proof.
  rewrite inserted_chain, filter_app.
  assert (Hc : filter (has_kind K_filter) (common_stages r)
               = when (negb (StdString.empty (predicate r)))
                   (Filter_xacts _ _ (predicate r))).
  { unfold common_stages. rewrite !filter_app, !filter_when.
    cbn [has_kind kind_of]. rewrite app_nil_r.
    destruct (comm_as_payee r); [reflexivity|].
    rewrite filter_when. reflexivity. }
  rewrite Hc. f_equal.
  destruct handle_individual_xacts; [|reflexivity].
  unfold individual_stages. rewrite !filter_app.
  rewrite (filter_none _ (interval_stages r)).
  2:{ intros s H. apply interval_stages_kinds in H.
      destruct H as [-> | ->]; reflexivity. }
  rewrite (filter_none _ (subtotal_stages r)).
  2:{ intros s H. apply subtotal_stages_kinds in H.
      destruct H as [-> | [-> | ->]]; reflexivity. }
  rewrite (filter_none _ (component_stages r)).
  2:{ intros s H. apply component_stages_kinds in H.
      destruct H as (_ & e & -> & _). reflexivity. }
  unfold reshape_stages, display_stages.
  rewrite !filter_app, !filter_when. cbn [has_kind kind_of filter app].
  destruct (entry_sort r); cbn; rewrite ?app_nil_r; reflexivity.
Qed.

End Chain.

(** ** The chain on concrete reports *)

(** Claim C1 fails as stated: with only a display predicate set, the chain
    is calc followed by the display filter, so the display filter is not
    met before calc. *)
Lemma display_filter_not_before_calc :
  StdString.empty (display_predicate Sample.with_display_predicate) = false
  /\ flow (Sample.chain 0%Z Sample.with_display_predicate true)
     = [Calc_xacts _ _; Filter_xacts _ _ "a > 0"]
  /\ ~ flows_before (flow (Sample.chain 0%Z Sample.with_display_predicate true))
         (Filter_xacts _ _ "a > 0") (Calc_xacts _ _).
Proof.
  repeat split.
  intros (i & j & Hij & Hi & Hj). cbn in Hi, Hj.
  destruct i as [|[|i]]; cbn in Hi; try discriminate.
  - destruct j as [|[|[|j]]]; cbn in Hj; try discriminate; lia.
  - destruct i; discriminate.
Qed.

Lemma calc_upstream_of_display_filter_witness :
  exists up : list Sample.stage,
    flow (Sample.chain 0%Z Sample.with_display_predicate true)
    = up ++ [Calc_xacts _ _; Filter_xacts _ _ "a > 0"] ++ [] ++ []
    /\ Forall (fun s => kind_of s <> K_calc) up.
Proof.
  apply (@calc_upstream_of_display_filter Sample.datetime_t Sample.value_t
           Sample.consumer_t Sample.parse_datetime Sample.value_of_string
           0%Z Sample.with_display_predicate Sample.format_xacts).
  reflexivity.
Defined.

(** Claim C2 fails as stated: with [show_subtotal] and [days_of_the_week]
    both set, a day-of-week stage and a plain subtotal stage are inserted. *)
Lemma two_subtotal_family_stages :
  filter (@is_subtotal_family _ _)
         (inserted (Sample.chain 0%Z Sample.with_subtotal_and_dow true)
                   Sample.format_xacts)
  = [Dow_xacts _ _ false; Subtotal_xacts _ _ false]
  /\ ~ List.length
         (filter (@is_subtotal_family _ _)
                 (inserted (Sample.chain 0%Z Sample.with_subtotal_and_dow true)
                           Sample.format_xacts)) <= 1.
Proof. split; [reflexivity | cbn; lia]. Qed.

(** Claim C3 fails as stated: with only a report period set, the chain is
    the date sort, then the interval stage, then calc; the date sort is not
    behind the interval stage. *)
Lemma date_sort_not_downstream_of_interval :
  flow (Sample.chain 0%Z Sample.with_period true)
  = [Sort_xacts _ _ "d"; Interval_xacts _ _ "monthly" false; Calc_xacts _ _]
  /\ ~ immediately_before (flow (Sample.chain 0%Z Sample.with_period true))
         (Interval_xacts _ _ "monthly" false) (Sort_xacts _ _ "d")
  /\ ~ flows_before (flow (Sample.chain 0%Z Sample.with_period true))
         (Interval_xacts _ _ "monthly" false) (Sort_xacts _ _ "d").
Proof.
  repeat split.
  - intros (up & down & H). cbn in H.
    destruct up as [|s0 [|s1 [|s2 up]]]; cbn in H; try discriminate.
    destruct up; discriminate.
  - intros (i & j & Hij & Hi & Hj). cbn in Hi, Hj.
    destruct j as [|[|[|j]]]; cbn in Hj; try discriminate; try lia.
    destruct j; discriminate.
Qed.

Lemma date_sort_upstream_of_interval_witness :
  exists down : list Sample.stage,
    flow (Sample.chain 0%Z Sample.with_period true)
    = [] ++ [Sort_xacts _ _ "d"; Interval_xacts _ _ "monthly" false]
         ++ down ++ []
    /\ Forall (fun s => kind_of s <> K_interval) ([] ++ down).
Proof.
  apply (@date_sort_upstream_of_interval Sample.datetime_t Sample.value_t
           Sample.consumer_t Sample.parse_datetime Sample.value_of_string
           0%Z Sample.with_period Sample.format_xacts).
  reflexivity.
Defined.

Lemma component_stages_in_written_order_witness :
  exists up down : list Sample.stage,
    flow (Sample.chain 0%Z (Sample.with_descend "a;b;") true)
    = up ++ [Component_xacts _ _ "a"; Component_xacts _ _ "b";
             Component_xacts _ _ ""] ++ down ++ []
    /\ Forall (fun s => kind_of s <> K_component) up
    /\ Forall (fun s => kind_of s <> K_component) down
    /\ 3 = 3
    /\ descend_exprs_loop "a;b;" 0 (StdString.find "a;b;" ";" 0) []
       = ["a"; "b"; ""].
Proof.
  apply (@component_stages_in_written_order Sample.datetime_t Sample.value_t
           Sample.consumer_t Sample.parse_datetime Sample.value_of_string
           0%Z (Sample.with_descend "a;b;") Sample.format_xacts).
  reflexivity.
Defined.

Lemma remember_components_flag_witness :
  In (Subtotal_xacts Sample.datetime_t Sample.value_t true)
     (inserted (Sample.chain 0%Z Sample.with_descend_and_buckets true)
               Sample.format_xacts)
  /\ true = negb (StdString.empty "a;b")
  /\ (true = true <->
      exists e, In (Component_xacts _ _ e)
                   (inserted (Sample.chain 0%Z Sample.with_descend_and_buckets true)
                             Sample.format_xacts)).
Proof.
  assert (Hin : In (Subtotal_xacts Sample.datetime_t Sample.value_t true)
                   (inserted (Sample.chain 0%Z Sample.with_descend_and_buckets true)
                             Sample.format_xacts)).
  { cbn. tauto. }
  split; [exact Hin|].
  apply (@remember_components_flag Sample.datetime_t Sample.value_t
           Sample.consumer_t Sample.parse_datetime Sample.value_of_string
           0%Z Sample.with_descend_and_buckets Sample.format_xacts true
           (Subtotal_xacts _ _ true) true Hin).
  reflexivity.
Defined.

(** Claim C8 fails as stated: with a reconcile balance and no reconcile
    date, the reconcile stage gets the clock value as its cutoff, and two
    calls with the same options at different moments build different
    chains. *)
Lemma chain_differs_with_clock :
  flow (Sample.chain 0%Z Sample.with_reconcile_balance true)
  = [Reconcile_xacts "100.00" 0%Z; Calc_xacts _ _]
  /\ flow (Sample.chain 1%Z Sample.with_reconcile_balance true)
     = [Reconcile_xacts "100.00" 1%Z; Calc_xacts _ _]
  /\ Sample.chain 0%Z Sample.with_reconcile_balance true
     <> Sample.chain 1%Z Sample.with_reconcile_balance true.
Proof. repeat split. discriminate. Qed.

Lemma chain_depends_on_clock_witness :
  StdString.empty (reconcile_date Sample.with_reconcile_date) = false
  /\ Sample.chain 0%Z Sample.with_reconcile_date true
     = Sample.chain 1%Z Sample.with_reconcile_date true.
Proof.
  split; [reflexivity|].
  apply (@chain_depends_on_clock Sample.datetime_t Sample.value_t
           Sample.consumer_t Sample.parse_datetime Sample.value_of_string
           0%Z 1%Z Sample.with_reconcile_date Sample.format_xacts true).
  right. right. reflexivity.
Defined.

(** ** The helpers called from expressions *)

Section Helpers.

Variable datetime_t : Type.
Variable value_t : Type.
Variable NULL_VALUE : value_t.
Variable as_string : value_t -> result string.
Variable as_long : value_t -> result Z.
Variable as_datetime : value_t -> result datetime_t.

(** Claim C9.  Called with fewer than two arguments, [abbrev] throws the
    logic error that names its signature; called with no argument, [ftime]
    throws the one that names its own.  Whatever the value accessors would
    do with the arguments, they are not consulted: the test of
    [args.size()] comes first.  The result is the exception alone; neither
    function changes the report. *)
Theorem helper_usage_errors (r : report_t) (args_abbrev args_ftime : list value_t) :
  List.length args_abbrev < 2 ->
  List.length args_ftime < 1 ->
  abbrev NULL_VALUE as_string as_long r args_abbrev
  = Throw (logic_error "usage: abbrev(STRING, WIDTH [, STYLE, ABBREV_LEN])")
  /\ ftime NULL_VALUE as_string as_datetime r args_ftime
     = Throw (logic_error "usage: ftime(DATE [, DATE_FORMAT])").
Proof.
  intros Ha Hf. unfold abbrev, ftime.
  apply Nat.ltb_lt in Ha. apply Nat.ltb_lt in Hf.
  rewrite Ha, Hf. split; reflexivity.
Qed.

End Helpers.

Lemma helper_usage_errors_witness :
  abbrev Sample.NULL_VALUE Sample.as_string Sample.as_long default_report
         ["Assets:Checking"]
  = Throw (logic_error "usage: abbrev(STRING, WIDTH [, STYLE, ABBREV_LEN])")
  /\ ftime Sample.NULL_VALUE Sample.as_string Sample.as_datetime
           default_report []
     = Throw (logic_error "usage: ftime(DATE [, DATE_FORMAT])").
Proof.
  apply (@helper_usage_errors Sample.datetime_t Sample.value_t
           Sample.NULL_VALUE Sample.as_string Sample.as_long
           Sample.as_datetime default_report ["Assets:Checking"] []);
    simpl; lia.
Defined.

(** ** Calc before a filter, and a filter before calc *)

Section CalcFilter.

Import Stream.
Local Open Scope Z_scope.

Variable pred : xact -> bool.

Lemma run_app {S : Type} (st : stage_sem S) (s : S) (l1 l2 : list xact) :
  run st s (l1 ++ l2)
  = let '(s1, out1) := run st s l1 in
    let '(s2, out2) := run st s1 l2 in
    (s2, out1 ++ out2).
Proof.
  revert s. induction l1 as [|x l1 IH]; intros s; simpl.
  - now destruct (run st s l2).
  - destruct (accept st s x) as [s1 o1]. rewrite IH.
    destruct (run st s1 l1) as [s2 o2]. destruct (run st s2 l2) as [s3 o3].
    now rewrite app_assoc.
Qed.

Local Abbreviation calc_filter := (chain2 calc_xacts_sem (filter_xacts_sem pred)).
Local Abbreviation filter_calc := (chain2 (filter_xacts_sem pred) calc_xacts_sem).

(** *** The running totals calc accumulates *)

(** Calc in front of the filter adds every item, whatever the filter does
    with it afterwards. *)
Lemma calc_filter_total_step (t : balance) (x : xact) (items : list xact) :
  fst (fst (run calc_filter (t, tt) (x :: items)))
  = fst (fst (run calc_filter (add_amount t x, tt) items)).
Proof.
  cbn [run chain2 accept calc_xacts_sem filter_xacts_sem fst snd].
  destruct (pred (stamp x (add_amount t x))); cbn [app];
    now destruct (run calc_filter (add_amount t x, tt) items) as [[a u] o].
Qed.

Lemma filter_calc_step (t : balance) (x : xact) (items : list xact) :
  run filter_calc (tt, t) (x :: items)
  = if pred x
    then let '(s, out) := run filter_calc (tt, add_amount t x) items in
         (s, stamp x (add_amount t x) :: out)
    else run filter_calc (tt, t) items.
Proof.
  cbn [run chain2 accept calc_xacts_sem filter_xacts_sem fst snd].
  destruct (pred x); cbn [run accept calc_xacts_sem app].
  - now destruct (run filter_calc (tt, add_amount t x) items).
  - now destruct (run filter_calc (tt, t) items).
Qed.

(** The two running totals, from any two starting totals: they drift
    apart by the amounts the filter removes. *)
Lemma totals_drift (items : list xact) (t1 t2 : balance) (c : commodity) :
  fst (fst (run calc_filter (t1, tt) items)) c
  - snd (fst (run filter_calc (tt, t2) items)) c
  = t1 c - t2 c + removed_sum pred items c.
Proof.
  revert t1 t2. induction items as [|x items IH]; intros t1 t2.
  - simpl. unfold zero_balance. lia.
  - rewrite calc_filter_total_step, filter_calc_step. cbn [removed_sum].
    destruct (pred x).
    + specialize (IH (add_amount t1 x) (add_amount t2 x)).
      destruct (run filter_calc (tt, add_amount t2 x) items) as [[u2 a2] o2].
      cbn [fst snd] in *. rewrite IH.
      unfold add_amount. destruct (String.eqb c (xact_commodity x)); lia.
    + rewrite (IH (add_amount t1 x) t2).
      unfold add_amount. destruct (String.eqb c (xact_commodity x)); lia.
Qed.

Lemma calc_then_filter_run (items : list xact) :
  calc_then_filter pred items
  = (fst (fst (run calc_filter (zero_balance, tt) items)),
     snd (run calc_filter (zero_balance, tt) items)).
Proof.
  unfold calc_then_filter. cbn [init chain2 calc_xacts_sem filter_xacts_sem].
  now destruct (run calc_filter (zero_balance, tt) items) as [[a u] o].
Qed.

Lemma filter_then_calc_run (items : list xact) :
  filter_then_calc pred items
  = (snd (fst (run filter_calc (tt, zero_balance) items)),
     snd (run filter_calc (tt, zero_balance) items)).
Proof.
  unfold filter_then_calc. cbn [init chain2 calc_xacts_sem filter_xacts_sem].
  now destruct (run filter_calc (tt, zero_balance) items) as [[u a] o].
Qed.

Lemma totals_difference (items : list xact) (c : commodity) :
  fst (calc_then_filter pred items) c - fst (filter_then_calc pred items) c
  = removed_sum pred items c.
Proof.
  rewrite calc_then_filter_run, filter_then_calc_run. cbn [fst].
  rewrite totals_drift. unfold zero_balance. lia.
Qed.

(** *** The totals stamped on what the consumer receives *)

Lemma upto_last_kept_shape (items : list xact) :
  upto_last_kept pred items = []
  \/ exists l x, upto_last_kept pred items = (l ++ [x])%list /\ pred x = true.
Proof.
  induction items as [|y items IH]; simpl; [now left|].
  destruct (upto_last_kept pred items) as [|z more].
  - destruct (pred y) eqn:Hy; [|now left].
    right. exists [], y. auto.
  - right. destruct IH as [IH | (l & x & E & Hx)]; [discriminate|].
    exists (y :: l), x. rewrite E. auto.
Qed.

(** What lies behind the last surviving item does not reach the consumer
    of filter-then-calc. *)
Lemma filter_calc_output_upto (items : list xact) (t : balance) :
  snd (run filter_calc (tt, t) items)
  = snd (run filter_calc (tt, t) (upto_last_kept pred items)).
Proof.
  revert t. induction items as [|y items IH]; intros t; [reflexivity|].
  rewrite filter_calc_step. cbn [upto_last_kept].
  destruct (upto_last_kept pred items) as [|z more] eqn:E.
  - destruct (pred y) eqn:Hy.
    + rewrite filter_calc_step, Hy.
      specialize (IH (add_amount t y)).
      destruct (run filter_calc (tt, add_amount t y) items) as [s o].
      cbn [snd] in *. now rewrite IH.
    + now rewrite IH.
  - rewrite filter_calc_step. destruct (pred y).
    + specialize (IH (add_amount t y)).
      destruct (run filter_calc (tt, add_amount t y) items) as [s o].
      destruct (run filter_calc (tt, add_amount t y) (z :: more)) as [s' o'].
      cbn [snd] in *. now rewrite IH.
    + apply IH.
Qed.

Lemma filter_calc_last_stamp (items : list xact) (x : xact) (t : balance) :
  pred x = true ->
  final_stamp (snd (run filter_calc (tt, t) (items ++ [x])))
  = snd (fst (run filter_calc (tt, t) (items ++ [x]))).
Proof.
  intros Hx. rewrite run_app.
  destruct (run filter_calc (tt, t) items) as [[u a] o]. destruct u.
  rewrite filter_calc_step. cbn [run]. rewrite Hx.
  cbn [fst snd]. unfold final_stamp. now rewrite rev_app_distr.
Qed.

(** From here on the filter does not look at the stamped total. *)
Hypothesis pred_ignores_total : ignores_total pred.

Lemma calc_filter_step (t : balance) (x : xact) (items : list xact) :
  run calc_filter (t, tt) (x :: items)
  = let '(s, out) := run calc_filter (add_amount t x, tt) items in
    (s, (if pred x then [stamp x (add_amount t x)] else []) ++ out).
Proof.
  cbn [run chain2 accept calc_xacts_sem filter_xacts_sem fst snd].
  rewrite pred_ignores_total, app_nil_r. reflexivity.
Qed.

Lemma calc_filter_output_upto (items : list xact) (t : balance) :
  snd (run calc_filter (t, tt) items)
  = snd (run calc_filter (t, tt) (upto_last_kept pred items)).
Proof.
  revert t. induction items as [|y items IH]; intros t; [reflexivity|].
  rewrite calc_filter_step. cbn [upto_last_kept].
  specialize (IH (add_amount t y)).
  destruct (run calc_filter (add_amount t y, tt) items) as [s o].
  cbn [snd] in *.
  destruct (upto_last_kept pred items) as [|z more] eqn:E.
  - rewrite IH. cbn [run snd]. destruct (pred y) eqn:Hy.
    + rewrite calc_filter_step. cbn [run snd]. now rewrite Hy.
    + reflexivity.
  - rewrite calc_filter_step.
    destruct (run calc_filter (add_amount t y, tt) (z :: more)) as [s' o'].
    cbn [snd] in *. now rewrite IH.
Qed.

Lemma calc_filter_last_stamp (items : list xact) (x : xact) (t : balance) :
  pred x = true ->
  final_stamp (snd (run calc_filter (t, tt) (items ++ [x])))
  = fst (fst (run calc_filter (t, tt) (items ++ [x]))).
Proof.
  intros Hx. rewrite run_app.
  destruct (run calc_filter (t, tt) items) as [[a u] o]. destruct u.
  rewrite calc_filter_step. cbn [run]. rewrite Hx, app_nil_r.
  cbn [fst snd]. unfold final_stamp. now rewrite rev_app_distr.
Qed.

Lemma final_stamps_difference (items : list xact) (c : commodity) :
  final_stamp (snd (calc_then_filter pred items)) c
  - final_stamp (snd (filter_then_calc pred items)) c
  = removed_sum pred (upto_last_kept pred items) c.
Proof.
  rewrite calc_then_filter_run, filter_then_calc_run. cbn [snd].
  rewrite calc_filter_output_upto, filter_calc_output_upto.
  destruct (upto_last_kept_shape items) as [E | (l & x & E & Hx)]; rewrite E.
  - cbn. unfold zero_balance. lia.
  - rewrite (@calc_filter_last_stamp l x zero_balance Hx).
    rewrite (@filter_calc_last_stamp l x zero_balance Hx).
    rewrite totals_drift. unfold zero_balance. lia.
Qed.

End CalcFilter.

(** Claim C5, as the stages behave.  For every filter and every stream, in
    every commodity: the running total calc accumulates in front of the
    filter exceeds the one it accumulates behind the filter by the sum of
    the amounts the filter removes, so the two differ exactly when the
    removed amounts do not cancel.  For a filter that does not look at the
    stamped total, the totals stamped on the last item that reaches the
    consumer differ by the sum of the amounts removed up to that item, so
    the final stamped totals differ exactly when the amounts removed in
    front of the last surviving item do not cancel; amounts removed behind
    it make no difference to the consumer. *)
Theorem calc_filter_order (pred : Stream.xact -> bool)
    (items : list Stream.xact) (c : Stream.commodity) :
  (fst (Stream.calc_then_filter pred items) c
   - fst (Stream.filter_then_calc pred items) c
   = Stream.removed_sum pred items c)%Z
  /\ (fst (Stream.calc_then_filter pred items) c
      <> fst (Stream.filter_then_calc pred items) c
      <-> Stream.removed_sum pred items c <> 0%Z)
  /\ (Stream.ignores_total pred ->
      (Stream.final_stamp (snd (Stream.calc_then_filter pred items)) c
       - Stream.final_stamp (snd (Stream.filter_then_calc pred items)) c
       = Stream.removed_sum pred (Stream.upto_last_kept pred items) c)%Z
      /\ (Stream.final_stamp (snd (Stream.calc_then_filter pred items)) c
          <> Stream.final_stamp (snd (Stream.filter_then_calc pred items)) c
          <-> Stream.removed_sum pred (Stream.upto_last_kept pred items) c
              <> 0%Z)).
Proof.
  pose proof (totals_difference pred items c) as Hacc.
  split; [exact Hacc|]. split; [lia|].
  intros Hp. pose proof (final_stamps_difference Hp items c) as Hst.
  split; [exact Hst | lia].
Qed.

(** Claim C5 fails as stated: the filter removes two postings with non-zero
    amounts, +5 and -5, and both orders emit the third posting alone,
    stamped with the same total; the running totals of calc agree too. *)
Lemma cancelling_removals_same_totals :
  (exists x, In x Stream.cancelling_stream
             /\ Stream.keep_third x = false
             /\ Stream.xact_amount x <> 0%Z)
  /\ map Stream.xact_id
       (snd (Stream.calc_then_filter Stream.keep_third Stream.cancelling_stream))
     = [3]
  /\ map Stream.xact_id
       (snd (Stream.filter_then_calc Stream.keep_third Stream.cancelling_stream))
     = [3]
  /\ (forall c,
        Stream.final_stamp
          (snd (Stream.calc_then_filter Stream.keep_third Stream.cancelling_stream)) c
        = Stream.final_stamp
            (snd (Stream.filter_then_calc Stream.keep_third Stream.cancelling_stream)) c)
  /\ (forall c,
        fst (Stream.calc_then_filter Stream.keep_third Stream.cancelling_stream) c
        = fst (Stream.filter_then_calc Stream.keep_third Stream.cancelling_stream) c).
Proof.
  split.
  { exists (Stream.mk_xact 1 "USD" 5 Stream.zero_balance).
    repeat split; [cbn; tauto | discriminate]. }
  split; [reflexivity|]. split; [reflexivity|].
  split; intros c; cbn; unfold Stream.add_amount, Stream.zero_balance; cbn;
    destruct (String.eqb c "USD"); reflexivity.
Qed.

Lemma calc_filter_order_witness :
  (fst (Stream.calc_then_filter Stream.keep_third
          [Stream.mk_xact 3 "USD" 1 Stream.zero_balance;
           Stream.mk_xact 4 "USD" 7 Stream.zero_balance]) "USD"
   - fst (Stream.filter_then_calc Stream.keep_third
            [Stream.mk_xact 3 "USD" 1 Stream.zero_balance;
             Stream.mk_xact 4 "USD" 7 Stream.zero_balance]) "USD" = 7)%Z
  /\ (Stream.final_stamp
        (snd (Stream.calc_then_filter Stream.keep_third
                [Stream.mk_xact 3 "USD" 1 Stream.zero_balance;
                 Stream.mk_xact 4 "USD" 7 Stream.zero_balance])) "USD"
      - Stream.final_stamp
          (snd (Stream.filter_then_calc Stream.keep_third
                  [Stream.mk_xact 3 "USD" 1 Stream.zero_balance;
                   Stream.mk_xact 4 "USD" 7 Stream.zero_balance])) "USD"
      = 0)%Z.
Proof.
  pose proof (@calc_filter_order Stream.keep_third
                [Stream.mk_xact 3 "USD" 1 Stream.zero_balance;
                 Stream.mk_xact 4 "USD" 7 Stream.zero_balance] "USD")
    as (Hacc & _ & Hst).
  split; [exact Hacc|].
  exact (proj1 (Hst (fun x b => eq_refl))).
Defined.

(** ** What the builder reads *)

(** X12.  Without individual handling the chain depends on six options
    only: inversion, related (with its flag), the general predicate and the
    two payee flags.  Neither the clock, nor the parsers of dates and
    values, nor any other option of the report changes it. *)
Theorem aggregate_chain_options (datetime_t value_t consumer_t : Type)
    (parse1 parse2 : string -> datetime_t) (value1 value2 : string -> value_t)
    (now1 now2 : datetime_t) (r1 r2 : report_t)
    (base : xact_handler datetime_t value_t consumer_t) :
  show_inverted r1 = show_inverted r2 ->
  show_related r1 = show_related r2 ->
  show_all_related r1 = show_all_related r2 ->
  predicate r1 = predicate r2 ->
  comm_as_payee r1 = comm_as_payee r2 ->
  code_as_payee r1 = code_as_payee r2 ->
  chain_xact_handlers parse1 value1 now1 r1 base false
  = chain_xact_handlers parse2 value2 now2 r2 base false.
Proof.
  intros Hi Hr Ha Hp Hc Hd. rewrite !chain_prepend. unfold common_stages.
  now rewrite Hi, Hr, Ha, Hp, Hc, Hd.
Qed.

(** X13.  The parser of dates is applied to the reconcile date only, and
    only when both the reconcile balance and the reconcile date are given;
    the constructor of values is applied to the reconcile balance only, and
    only when it is given.  Two parsers that agree there build the same
    chain. *)
Theorem external_parsers_use (datetime_t value_t consumer_t : Type)
    (parse1 parse2 : string -> datetime_t) (value1 value2 : string -> value_t)
    (now : datetime_t) (r : report_t)
    (base : xact_handler datetime_t value_t consumer_t)
    (handle_individual_xacts : bool) :
  handle_individual_xacts = false
  \/ StdString.empty (reconcile_balance r) = true
  \/ (value1 (reconcile_balance r) = value2 (reconcile_balance r)
      /\ (StdString.empty (reconcile_date r) = true
          \/ parse1 (reconcile_date r) = parse2 (reconcile_date r))) ->
  chain_xact_handlers parse1 value1 now r base handle_individual_xacts
  = chain_xact_handlers parse2 value2 now r base handle_individual_xacts.
Proof.
  intros H. rewrite !chain_prepend. f_equal. f_equal.
  destruct handle_individual_xacts; [|reflexivity].
  unfold individual_stages, reshape_stages, reconcile_cutoff.
  destruct H as [H | [H | [Hv [H | H]]]].
  - discriminate.
  - now rewrite H.
  - now rewrite Hv, H.
  - now rewrite Hv, H.
Qed.

(** ** More on the helpers called from expressions *)

Section HelperResults.

Variable datetime_t : Type.
Variable value_t : Type.
Variable NULL_VALUE : value_t.
Variable as_string : value_t -> result string.
Variable as_long : value_t -> result Z.
Variable as_datetime : value_t -> result datetime_t.

(** X14.  [abbrev] returns exactly when it has at least two arguments,
    the first is a string and, if there are exactly four, the fourth is an
    integer; what it returns is then the null value, whatever the
    arguments. *)
Theorem abbrev_returns (r : report_t) (args : list value_t) (v : value_t) :
  abbrev NULL_VALUE as_string as_long r args = Return v <->
  v = NULL_VALUE
  /\ 2 <= List.length args
  /\ (exists a0 str, nth_error args 0 = Some a0 /\ as_string a0 = Return str)
  /\ (List.length args = 4 ->
      exists a3 n, nth_error args 3 = Some a3 /\ as_long a3 = Return n).
Proof.
  unfold abbrev, arg.
  destruct args as [|a0 [|a1 rest]].
  - simpl. split; [discriminate | intros (_ & H & _); lia].
  - simpl. split; [discriminate | intros (_ & H & _); lia].
  - change (List.length (a0 :: a1 :: rest) <? 2)%nat with false. cbv iota.
    simpl nth_error. cbn [bind].
    destruct (as_string a0) as [str | e] eqn:Hs; cbn [bind].
    2:{ split; [discriminate|]. intros (_ & _ & (a & s & [= <-] & Hs') & _).
        congruence. }
    destruct rest as [|a2 [|a3 [|a4 rest]]]; simpl.
    + split; [intros [= <-] | intros (-> & _)]; [|reflexivity].
      repeat split; [lia | eauto | discriminate].
    + split; [intros [= <-] | intros (-> & _)]; [|reflexivity].
      repeat split; [lia | eauto | discriminate].
    + destruct (as_long a3) as [n | e] eqn:Hl; cbn [bind].
      * split; [intros [= <-] | intros (-> & _)]; [|reflexivity].
        repeat split; [lia | eauto | eauto].
      * split; [discriminate|]. intros (_ & _ & _ & H).
        destruct (H eq_refl) as (a & n & [= <-] & Hn). congruence.
    + split; [intros [= <-] | intros (-> & _)]; [|reflexivity].
      repeat split; [lia | eauto | discriminate].
Qed.

(** X15.  [abbrev] reads its first argument, and its fourth when there
    are exactly four: the width, the style, any argument of a longer call
    and the abbreviation length of the session have no part in the
    result. *)
Theorem abbrev_reads (r r' : report_t) (args args' : list value_t) :
  List.length args = List.length args' ->
  nth_error args 0 = nth_error args' 0 ->
  (List.length args = 4 -> nth_error args 3 = nth_error args' 3) ->
  abbrev NULL_VALUE as_string as_long r args
  = abbrev NULL_VALUE as_string as_long r' args'.
Proof.
  intros Hl H0 H3. unfold abbrev, arg. rewrite <- Hl, <- H0.
  destruct (List.length args <? 2)%nat; [reflexivity|].
  destruct (nth_error args 0) as [a0|]; [|reflexivity]. cbn [bind].
  destruct (as_string a0); [|reflexivity]. cbn [bind].
  destruct (List.length args =? 4)%nat eqn:E; [|reflexivity].
  apply Nat.eqb_eq in E. rewrite <- (H3 E).
  destruct (nth_error args 3) as [a3|]; [|reflexivity]. cbn [bind].
  destruct (as_long a3); reflexivity.
Qed.

(** X16.  [ftime] returns exactly when it has at least one argument, the
    first is a date and, if there are exactly two, the second is a string;
    what it returns is then the null value. *)
Theorem ftime_returns (r : report_t) (args : list value_t) (v : value_t) :
  ftime NULL_VALUE as_string as_datetime r args = Return v <->
  v = NULL_VALUE
  /\ 1 <= List.length args
  /\ (exists a0 date, nth_error args 0 = Some a0 /\ as_datetime a0 = Return date)
  /\ (List.length args = 2 ->
      exists a1 fmt, nth_error args 1 = Some a1 /\ as_string a1 = Return fmt).
Proof.
  unfold ftime, arg.
  destruct args as [|a0 rest].
  - simpl. split; [discriminate | intros (_ & H & _); lia].
  - change (List.length (a0 :: rest) <? 1)%nat with false. cbv iota.
    simpl nth_error. cbn [bind].
    destruct (as_datetime a0) as [date | e] eqn:Hd; cbn [bind].
    2:{ split; [discriminate|]. intros (_ & _ & (a & s & [= <-] & Hd') & _).
        congruence. }
    destruct rest as [|a1 [|a2 rest]]; simpl.
    + split; [intros [= <-] | intros (-> & _)]; [|reflexivity].
      repeat split; [lia | eauto | discriminate].
    + destruct (as_string a1) as [fmt | e] eqn:Hs; cbn [bind].
      * split; [intros [= <-] | intros (-> & _)]; [|reflexivity].
        repeat split; [lia | eauto | eauto].
      * split; [discriminate|]. intros (_ & _ & _ & H).
        destruct (H eq_refl) as (a & n & [= <-] & Hn). congruence.
    + split; [intros [= <-] | intros (-> & _)]; [|reflexivity].
      repeat split; [lia | eauto | discriminate].
Qed.

(** X17.  [ftime] reads its first argument, and its second when there
    are exactly two: with three or more arguments the format is not looked
    at, and the report has no part in the result. *)
Theorem ftime_reads (r r' : report_t) (args args' : list value_t) :
  List.length args = List.length args' ->
  nth_error args 0 = nth_error args' 0 ->
  (List.length args = 2 -> nth_error args 1 = nth_error args' 1) ->
  ftime NULL_VALUE as_string as_datetime r args
  = ftime NULL_VALUE as_string as_datetime r' args'.
Proof.
  intros Hl H0 H1. unfold ftime, arg. rewrite <- Hl, <- H0.
  destruct (List.length args <? 1)%nat; [reflexivity|].
  destruct (nth_error args 0) as [a0|]; [|reflexivity]. cbn [bind].
  destruct (as_datetime a0); [|reflexivity]. cbn [bind].
  destruct (List.length args =? 2)%nat eqn:E; [|reflexivity].
  apply Nat.eqb_eq in E. rewrite <- (H1 E).
  destruct (nth_error args 1) as [a1|]; [|reflexivity]. cbn [bind].
  destruct (as_string a1); reflexivity.
Qed.

End HelperResults.

(** ** The option names [lookup] resolves *)

Lemma c_str_nul_free (s : string) : CString.nul_free (CString.c_str s) = true.
Proof.
  induction s as [|a s IH]; simpl; [reflexivity|].
  destruct (Ascii.eqb a CString.NUL) eqn:E; simpl; [reflexivity|].
  now rewrite E, IH.
Qed.

Lemma c_str_truncates (s t : string) :
  CString.nul_free s = true -> CString.c_str (s ++ String CString.NUL t) = s.
Proof.
  induction s as [|a s IH]; simpl; intros H; [reflexivity|].
  apply andb_prop in H. destruct H as [Ha Hs].
  apply negb_true_iff in Ha. rewrite Ha. now rewrite IH.
Qed.

(** [strncmp] over the length of its second argument is a prefix test. *)
Lemma strncmp_eq_prefix (q p : string) :
  CString.strncmp_eq p q (String.length q) = true <-> exists t, p = (q ++ t)%string.
Proof.
  revert p. induction q as [|b q IH]; intros p; simpl.
  - split; [intros _; now exists p | intros _; reflexivity].
  - destruct p as [|a p].
    + split; [discriminate | intros (t & H); discriminate].
    + rewrite andb_true_iff, Ascii.eqb_eq, IH. split.
      * intros (-> & t & ->). now exists t.
      * intros (t & [= -> ->]). split; [reflexivity | now exists t].
Qed.

Lemma strncmp_eq_is_prefix (q p : string) :
  CString.strncmp_eq p q (String.length q) = String.prefix q p.
Proof.
  revert p. induction q as [|b q IH]; intros [|a p]; simpl; try reflexivity.
  destruct (ascii_dec b a) as [-> | Hne].
  - now rewrite Ascii.eqb_refl, IH.
  - destruct (Ascii.eqb a b) eqn:E; [|reflexivity].
    apply Ascii.eqb_eq in E. congruence.
Qed.

Lemma advance_past_prefix (q : string) :
  CString.advance ("option_" ++ q) 7 = q.
Proof.
  change (CString.advance ("option_" ++ q) 7) with (StdString.substr_from q 0).
  apply substr_from_0.
Qed.

(** The second byte of a NUL-free string is the terminator only when the
    string has one byte. *)
Lemma one_byte (c : ascii) (q : string) :
  CString.nul_free q = true -> CString.deref q = c -> c <> CString.NUL ->
  Ascii.eqb (CString.deref (CString.advance q 1)) CString.NUL
  = String.eqb q (String c "").
Proof.
  intros Hq Hc Hn. destruct q as [|a q]; simpl in Hc.
  - congruence.
  - subst a. change (CString.advance (String c q) 1) with (StdString.substr_from q 0).
    rewrite substr_from_0. simpl. rewrite Ascii.eqb_refl.
    destruct q as [|b q]; simpl; [reflexivity|].
    simpl in Hq. apply andb_prop in Hq. destruct Hq as [_ Hq].
    apply andb_prop in Hq. destruct Hq as [Hb _].
    now apply negb_true_iff in Hb.
Qed.

Section LookupResults.

Variable ptr_op_t : Type.
Variable MAKE_FUNCTOR : report_method -> ptr_op_t.
Variable session_lookup : string -> ptr_op_t.

(** The names after [option_], as the inner switch resolves them. *)
Lemma lookup_option_table (q : string) :
  CString.nul_free q = true ->
  lookup_option MAKE_FUNCTOR q
  = option_map MAKE_FUNCTOR (table_find ("option_" ++ q) option_table).
Proof.
  intros Hq. unfold lookup_option, CString.strcmp_eq.
  cbn [table_find option_table String.eqb String.append Ascii.eqb Bool.eqb].
  destruct (String.eqb q "amount") eqn:E1.
  { apply String.eqb_eq in E1. subst q. reflexivity. }
  destruct (String.eqb q "bar") eqn:E2.
  { apply String.eqb_eq in E2. subst q. reflexivity. }
  destruct (String.eqb q "format") eqn:E3.
  { apply String.eqb_eq in E3. subst q. reflexivity. }
  destruct (String.eqb q "t") eqn:E4.
  { apply String.eqb_eq in E4. subst q. reflexivity. }
  destruct (String.eqb q "total") eqn:E5.
  { apply String.eqb_eq in E5. subst q. reflexivity. }
  destruct (String.eqb q "T") eqn:E6.
  { apply String.eqb_eq in E6. subst q. reflexivity. }
  simpl option_map.
  destruct (Ascii.eqb (CString.deref q) "a"); [reflexivity|].
  destruct (Ascii.eqb (CString.deref q) "b"); [reflexivity|].
  destruct (Ascii.eqb (CString.deref q) "e"); [reflexivity|].
  destruct (Ascii.eqb (CString.deref q) "f"); [reflexivity|].
  destruct (Ascii.eqb (CString.deref q) "i"); [reflexivity|].
  destruct (Ascii.eqb (CString.deref q) "l"); [reflexivity|].
  destruct (Ascii.eqb (CString.deref q) "r"); [reflexivity|].
  destruct (Ascii.eqb (CString.deref q) "t") eqn:Ht.
  { apply Ascii.eqb_eq in Ht.
    rewrite (@one_byte "t" q Hq Ht) by discriminate. now rewrite E4. }
  destruct (Ascii.eqb (CString.deref q) "T") eqn:HT; [|reflexivity].
  apply Ascii.eqb_eq in HT.
  rewrite (@one_byte "T" q Hq HT) by discriminate. now rewrite E6.
Qed.

Lemma table_find_needs_prefix (p : string) :
  CString.strncmp_eq p "option_" 7 = false -> table_find p option_table = None.
Proof.
  intros H.
  destruct (table_find p option_table) as [m|] eqn:E; [|reflexivity].
  exfalso.
  assert (Hp : exists t, p = ("option_" ++ t)%string).
  { unfold option_table in E. simpl in E.
    destruct (String.eqb p "option_amount") eqn:E1;
      [apply String.eqb_eq in E1; now exists "amount"|].
    destruct (String.eqb p "option_bar") eqn:E2;
      [apply String.eqb_eq in E2; now exists "bar"|].
    destruct (String.eqb p "option_format") eqn:E3;
      [apply String.eqb_eq in E3; now exists "format"|].
    destruct (String.eqb p "option_t") eqn:E4;
      [apply String.eqb_eq in E4; now exists "t"|].
    destruct (String.eqb p "option_total") eqn:E5;
      [apply String.eqb_eq in E5; now exists "total"|].
    destruct (String.eqb p "option_T") eqn:E6;
      [apply String.eqb_eq in E6; now exists "T"|].
    discriminate. }
  apply (strncmp_eq_prefix "option_" p) in Hp. simpl String.length in Hp.
  congruence.
Qed.

Lemma lookup_by_table (name : string) :
  lookup MAKE_FUNCTOR session_lookup name
  = match table_find (CString.c_str name) option_table with
    | Some m => MAKE_FUNCTOR m
    | None => session_lookup name
    end.
Proof.
  unfold lookup. cbv zeta.
  pose proof (c_str_nul_free name) as Hn.
  destruct (CString.strncmp_eq (CString.c_str name) "option_" 7) eqn:Hs.
  - pose proof Hs as Hp.
    apply (strncmp_eq_prefix "option_" (CString.c_str name)) in Hp.
    destruct Hp as (q & Hp). rewrite Hp in *.
    change (CString.deref ("option_" ++ q)) with "o"%char.
    rewrite Ascii.eqb_refl, advance_past_prefix.
    rewrite lookup_option_table by exact Hn.
    now destruct (table_find ("option_" ++ q) option_table).
  - rewrite (table_find_needs_prefix _ Hs).
    now destruct (Ascii.eqb (CString.deref (CString.c_str name)) "o").
Qed.

(** X18.  [lookup] is a table lookup: the C string of the name is
    resolved to [option_amount] for [option_amount] and [option_t], to
    [option_total] for [option_total] and [option_T], to [option_bar] and
    [option_format] for their own names, compared exactly and with case;
    every other name, the options compiled out included, goes to the
    session's [lookup] unchanged. *)
Theorem lookup_is_table (name : string) :
  lookup MAKE_FUNCTOR session_lookup name
  = match table_find (CString.c_str name) option_table with
    | Some m => MAKE_FUNCTOR m
    | None => session_lookup name
    end.
Proof. apply lookup_by_table. Qed.

(** X19.  A name whose C string does not start with [option_] (the empty
    name, a name that starts with a NUL byte) is never resolved by the
    report: it is handed to the session's [lookup] as it is. *)
Theorem lookup_delegates (name : string) :
  String.prefix "option_" (CString.c_str name) = false ->
  lookup MAKE_FUNCTOR session_lookup name = session_lookup name.
Proof.
  intros H. rewrite lookup_by_table.
  rewrite <- (strncmp_eq_is_prefix "option_") in H. simpl String.length in H.
  now rewrite (table_find_needs_prefix _ H).
Qed.

(** X20.  The comparisons stop at the first NUL byte of the name: a name
    made of a resolved option name, a NUL byte and anything behind it
    resolves like the option name alone. *)
Theorem lookup_stops_at_nul (s t : string) (m : report_method) :
  CString.nul_free s = true ->
  table_find s option_table = Some m ->
  lookup MAKE_FUNCTOR session_lookup (s ++ String CString.NUL t) = MAKE_FUNCTOR m.
Proof.
  intros Hs Hm. rewrite lookup_by_table, (@c_str_truncates s t Hs). now rewrite Hm.
Qed.

End LookupResults.

(** ** The further properties on concrete inputs *)

Lemma qualifying_flags_inert_witness :
  Sample.chain 0%Z
    (set_entry_sort
       (mk_report 0 0 "" "" "" "" "" "" false false false false false true
                  false "" false false false "" true false (mk_session 2))
       true) true
  = Sample.chain 0%Z
      (mk_report 0 0 "" "" "" "" "" "" false false false false false true
                 false "" false false false "" true false (mk_session 2))
      true
  /\ Sample.chain 0%Z
       (set_reconcile_date
          (mk_report 0 0 "" "" "" "" "" "" false false false false false true
                     false "" false false false "" true false (mk_session 2))
          "1970/01/02") true
     = Sample.chain 0%Z
         (mk_report 0 0 "" "" "" "" "" "" false false false false false true
                    false "" false false false "" true false (mk_session 2))
         true.
Proof.
  pose proof (@qualifying_flags_inert Sample.datetime_t Sample.value_t
                Sample.consumer_t Sample.parse_datetime Sample.value_of_string
                0%Z
                (mk_report 0 0 "" "" "" "" "" "" false false false false false
                           true false "" false false false "" true false
                           (mk_session 2))
                Sample.format_xacts true true "1970/01/02")
    as (H1 & _ & _ & _ & _ & H6).
  split; [apply H1 | apply H6]; reflexivity.
Defined.

Lemma aggregate_chain_options_witness :
  chain_xact_handlers Sample.parse_datetime Sample.value_of_string 0%Z
    Sample.with_descend_and_buckets Sample.format_xacts false
  = chain_xact_handlers (fun _ => 7%Z) (fun s => (s ++ s)%string) 1%Z
      (mk_report 0 0 "" "" "" "" "" "" false false false false false false
                 false "" true false false "" false false (mk_session 2))
      Sample.format_xacts false.
Proof.
  apply (@aggregate_chain_options Sample.datetime_t Sample.value_t
           Sample.consumer_t Sample.parse_datetime (fun _ => 7%Z)
           Sample.value_of_string (fun s => (s ++ s)%string) 0%Z 1%Z
           Sample.with_descend_and_buckets
           (mk_report 0 0 "" "" "" "" "" "" false false false false false
                      false false "" true false false "" false false
                      (mk_session 2))
           Sample.format_xacts); reflexivity.
Defined.

Lemma external_parsers_use_witness :
  chain_xact_handlers Sample.parse_datetime Sample.value_of_string 0%Z
    Sample.with_reconcile_balance Sample.format_xacts true
  = chain_xact_handlers (fun _ => 7%Z) Sample.value_of_string 0%Z
      Sample.with_reconcile_balance Sample.format_xacts true.
Proof.
  apply (@external_parsers_use Sample.datetime_t Sample.value_t
           Sample.consumer_t Sample.parse_datetime (fun _ => 7%Z)
           Sample.value_of_string Sample.value_of_string 0%Z
           Sample.with_reconcile_balance Sample.format_xacts true).
  right. right. split; [reflexivity | left; reflexivity].
Defined.

Lemma abbrev_reads_witness :
  abbrev "" (fun v : string => Return v)
         (fun v : string => Return (Z.of_nat (String.length v)))
         default_report ["Assets:Checking"; "20"; "0"]
  = abbrev "" (fun v : string => Return v)
           (fun v : string => Return (Z.of_nat (String.length v)))
           Sample.with_period ["Assets:Checking"; "wide"; "other"].
Proof.
  apply (@abbrev_reads string "" (fun v : string => Return v)
           (fun v : string => Return (Z.of_nat (String.length v)))
           default_report Sample.with_period
           ["Assets:Checking"; "20"; "0"] ["Assets:Checking"; "wide"; "other"]);
    [reflexivity | reflexivity | discriminate].
Defined.

Lemma ftime_reads_witness :
  ftime "" (fun v : string => Throw (value_error v))
        (fun v : string => Return (Z.of_nat (String.length v)))
        default_report ["2008/01/01"; "%Y"; "x"]
  = ftime "" (fun v : string => Throw (value_error v))
          (fun v : string => Return (Z.of_nat (String.length v)))
          Sample.with_period ["2008/01/01"; "%m"; "y"].
Proof.
  apply (@ftime_reads Z string "" (fun v : string => Throw (value_error v))
           (fun v : string => Return (Z.of_nat (String.length v)))
           default_report Sample.with_period
           ["2008/01/01"; "%Y"; "x"] ["2008/01/01"; "%m"; "y"]);
    [reflexivity | reflexivity | discriminate].
Defined.

Lemma lookup_delegates_witness :
  lookup (fun m => inl m) (fun name : string => inr name) "amount"
  = (inr "amount" : report_method + string).
Proof.
  apply (@lookup_delegates (report_method + string)%type (fun m => inl m)
           (fun name : string => inr name) "amount").
  reflexivity.
Defined.

Lemma lookup_stops_at_nul_witness :
  lookup (fun m => inl m) (fun name : string => inr name)
         ("option_total" ++ String CString.NUL "s")%string
  = (inl option_total : report_method + string).
Proof.
  apply (@lookup_stops_at_nul (report_method + string)%type (fun m => inl m)
           (fun name : string => inr name) "option_total" "s" option_total);
    reflexivity.
Defined.
